(** * Hodor: the file deployer (package [deployer])

    A shallow embedding of [deployer/mod.go]: the job queue with its single
    worker, the status store, and the install procedure (fetch, extract into
    a scratch directory, swap into the target directory), together with the
    properties the design document states about them.

    Conventions.
    - Go strings and byte slices are [string]; a Go [error] is the text its
      [Error()] method returns, and [(T, error)] results are values of [ret].
    - External collaborators are data: the buntdb database is a finite map
      with a closed flag, the operating system's file tree is a finite map
      from absolute paths to nodes, an HTTP response body is the sequence of
      tar entries that [gzip.NewReader] and [tar.NewReader] read from it.
    - Random choices of the environment (the job id drawn by [xid.New], the
      suffixes tried by [ioutil.TempDir]) are explicit arguments. *)

From Stdlib Require Import ZArith NArith Ascii String.
From stdpp Require Import gmap strings list fin_maps pretty.

Open Scope string_scope.
Open Scope list_scope.

(** ** Results and formatting *)

(** The result of a Go function returning [(T, error)]. On [Fail] the Go
    code returns the zero value of [T] next to the error. *)
Inductive ret (A : Type) : Type :=
  | Val (a : A)
  | Fail (err : string).
Arguments Val {A} a.
Arguments Fail {A} err.

(** A call either returns or ends the process in a run-time panic (send on
    a closed channel, close of a nil or closed channel). *)
Inductive outcome (A : Type) : Type :=
  | Returns (a : A)
  | Panics (msg : string).
Arguments Returns {A} a.
Arguments Panics {A} msg.

(** The double quote character. *)
Definition dquote : ascii := "034"%char.
Definition str1 (c : ascii) : string := String c EmptyString.

Definition hexdigit (n : N) : ascii :=
  if (n <? 10)%N then ascii_of_N (48 + n) else ascii_of_N (87 + n).

(** [strconv.Quote], the [%q] verb of [fmt], on strings of ASCII bytes:
    printable characters stand for themselves, the quote and the backslash
    are escaped, control characters use their mnemonic or [\xNN]. *)
Definition quote_char (c : ascii) : string :=
  let n := N_of_ascii c in
  if decide (c = dquote) then String "\" (str1 dquote)
  else if decide (c = "\"%char) then "\\"
  else if decide (n = 7%N) then "\a"
  else if decide (n = 8%N) then "\b"
  else if decide (n = 12%N) then "\f"
  else if decide (n = 10%N) then "\n"
  else if decide (n = 13%N) then "\r"
  else if decide (n = 9%N) then "\t"
  else if decide (n = 11%N) then "\v"
  else if ((n <? 32) || (127 <=? n))%N
       then "\x" +:+ str1 (hexdigit (n / 16)) +:+ str1 (hexdigit (n mod 16))
       else str1 c.

Fixpoint quote_body (s : string) : string :=
  match s with
  | EmptyString => EmptyString
  | String c s' => quote_char c +:+ quote_body s'
  end.

Definition fmt_q (s : string) : string :=
  str1 dquote +:+ quote_body s +:+ str1 dquote.

(** ** Jobs and job statuses *)

(** [JobStatus]: the status of a job, as stored and as returned. *)
Record JobStatus : Type := mkJobStatus {
  Status : string;
  Message : string
}.

(** The zero value of [JobStatus], returned next to an error. *)
Definition zeroJobStatus : JobStatus := mkJobStatus EmptyString EmptyString.

#[global] Instance JobStatus_eq_dec : EqDecision JobStatus.
Proof. solve_decision. Defined.

(** [job]: created each time a release is triggered. [releaseURL] is the
    string form of the URL, which is all the deployer uses of it. *)
Record job : Type := mkJob {
  id : string;
  releaseID : string;
  releaseURL : string
}.

#[global] Instance job_eq_dec : EqDecision job.
Proof. solve_decision. Defined.

(** [newJob]; [jid] is the identifier drawn by [xid.New().String()]. *)
Definition newJob (jid : string) (releaseID releaseURL : string) : job :=
  mkJob jid releaseID releaseURL.

(** ** Serialization *)

(** The [Serde] interface. [Unmarshal] starts from the zero [JobStatus]. *)
Record Serde : Type := mkSerde {
  Marshal : JobStatus -> ret string;
  Unmarshal : string -> ret JobStatus
}.

(** [fakeSerde] of the tests: [Marshal] returns [nil] bytes and the
    configured error, [Unmarshal] returns the error and leaves the value
    untouched. *)
Definition fakeSerde (err : option string) : Serde :=
  mkSerde
    (fun _ => match err with Some e => Fail e | None => Val EmptyString end)
    (fun _ => match err with Some e => Fail e | None => Val zeroJobStatus end).

(** ** The database *)

(** The buntdb database as the deployer uses it: string keys and values, one
    transaction per access, and an error once the database is closed. *)
Record DB : Type := mkDB {
  items : gmap string string;
  db_closed : bool
}.

Definition ErrNotFound : string := "not found".
Definition ErrDatabaseClosed : string := "database closed".

(** [db.Update(func(tx) { tx.Set(key, value, nil) })] *)
Definition db_Set (key value : string) (d : DB) : ret DB :=
  if db_closed d then Fail ErrDatabaseClosed
  else Val (mkDB (<[key := value]> (items d)) false).

(** [db.View(func(tx) { tx.Get(key, false) })] *)
Definition db_Get (key : string) (d : DB) : ret string :=
  if db_closed d then Fail ErrDatabaseClosed
  else match items d !! key with
       | Some v => Val v
       | None => Fail ErrNotFound
       end.

(** ** The job channel *)

(** [jobSize] is the channel size used to store jobs. *)
Definition jobSize : nat := 50.

(** A Go channel of jobs: nil, or made with a capacity, holding the buffered
    jobs oldest first, and possibly closed. *)
Inductive chan : Type :=
  | ChanNil
  | Chan (cap : nat) (buf : list job) (closed : bool).

(** [make(chan job, n)] *)
Definition make_chan (n : nat) : chan := Chan n [] false.

(** The outcome of [select { case c <- j: ... default: ... }] when no
    receiver is parked on the channel. *)
Inductive send_result : Type :=
  | Sent (c : chan)
  | WouldBlock
  | SendPanic.

Definition try_send (j : job) (c : chan) : send_result :=
  match c with
  | ChanNil => WouldBlock
  | Chan n buf true => SendPanic
  | Chan n buf false =>
      if decide (length buf < n) then Sent (Chan n (buf ++ [j]) false)
      else WouldBlock
  end.

(** The outcome of one receive of [for job := range c]. *)
Inductive recv_result : Type :=
  | Received (j : job) (c : chan)
  | RangeDone
  | RecvBlocks.

Definition recv (c : chan) : recv_result :=
  match c with
  | ChanNil => RecvBlocks
  | Chan n (j :: buf) cl => Received j (Chan n buf cl)
  | Chan n [] true => RangeDone
  | Chan n [] false => RecvBlocks
  end.

(** [close(c)] *)
Definition close_chan (c : chan) : outcome chan :=
  match c with
  | ChanNil => Panics "close of nil channel"
  | Chan n buf true => Panics "close of closed channel"
  | Chan n buf false => Returns (Chan n buf true)
  end.

Definition chan_len (c : chan) : nat :=
  match c with ChanNil => 0 | Chan _ buf _ => length buf end.

Definition chan_buf (c : chan) : list job :=
  match c with ChanNil => [] | Chan _ buf _ => buf end.

(** ** Paths *)

(** An absolute, cleaned path: the names from the root down. *)
Abbreviation path := (list string).

Definition slash : ascii := "/"%char.

(** [strings.Split(s, "/")], with [cur] the element being read. *)
Fixpoint split_slash (cur : string) (s : string) : list string :=
  match s with
  | EmptyString => [cur]
  | String c s' =>
      if decide (c = slash) then cur :: split_slash EmptyString s'
      else split_slash (cur +:+ str1 c) s'
  end.

(** One element of [filepath.Clean] on a rooted path: empty and [.]
    elements vanish, [..] removes the element before it and stays at the
    root. *)
Definition clean_step (p : path) (c : string) : path :=
  if decide (c = EmptyString) then p
  else if decide (c = ".") then p
  else if decide (c = "..") then removelast p
  else p ++ [c].

Definition clean_from (base : path) (s : string) : path :=
  fold_left clean_step (split_slash EmptyString s) base.

(** [filepath.Join(dest, name)] for an absolute, cleaned [dest]. *)
Definition filepath_Join (dest : path) (name : string) : path :=
  clean_from dest name.

Fixpoint path_tail_str (p : path) : string :=
  match p with
  | [] => EmptyString
  | c :: p' => "/" +:+ c +:+ path_tail_str p'
  end.

(** The path as the program prints it. *)
Definition path_str (p : path) : string :=
  match p with [] => "/" | _ => path_tail_str p end.

(** ** The file tree *)

Inductive node : Type :=
  | NFile (data : string) (mode : Z)
  | NDir (mode : Z).

#[global] Instance node_eq_dec : EqDecision node.
Proof. solve_decision. Defined.

(** The file tree of the one volume the model has: the nodes below the root
    by path. There are no symbolic links and no access checks. *)
Abbreviation FS := (gmap path node).

(** What the process sees of the system around it. *)
Record Env : Type := mkEnv {
  TempRoot : path;     (* os.TempDir() *)
  umask : Z            (* file mode creation mask *)
}.

Inductive errno : Type :=
  | EEXIST | ENOENT | ENOTDIR | EISDIR | EINVAL | ENOTEMPTY | EBUSY.

#[global] Instance errno_eq_dec : EqDecision errno.
Proof. solve_decision. Defined.

Definition errno_str (e : errno) : string :=
  match e with
  | EEXIST => "file exists"
  | ENOENT => "no such file or directory"
  | ENOTDIR => "not a directory"
  | EISDIR => "is a directory"
  | EINVAL => "invalid argument"
  | ENOTEMPTY => "directory not empty"
  | EBUSY => "device or resource busy"
  end.

(** The text of an [*os.PathError]. *)
Definition PathError (op pathname : string) (e : errno) : string :=
  op +:+ " " +:+ pathname +:+ ": " +:+ errno_str e.

(** The text of an [*os.LinkError]. *)
Definition LinkError (op old new : string) (e : errno) : string :=
  op +:+ " " +:+ old +:+ " " +:+ new +:+ ": " +:+ errno_str e.

Definition mode_dir_default : Z := 493.   (* 0755 *)

(** [os.Stat]: the node at a path; the root is always a directory. *)
Definition stat (fs : FS) (p : path) : option node :=
  match p with
  | [] => Some (NDir mode_dir_default)
  | _ => fs !! p
  end.

Definition parent (p : path) : path := removelast p.
Arguments parent : simpl never.

Definition apply_umask (E : Env) (perm : Z) : Z := Z.ldiff perm (umask E).
Arguments apply_umask : simpl never.

(** [os.Mkdir(p, perm)] *)
Definition os_Mkdir (E : Env) (p : path) (perm : Z) (fs : FS) : errno + FS :=
  match stat fs p with
  | Some _ => inl EEXIST
  | None =>
      match stat fs (parent p) with
      | Some (NDir _) => inr (<[p := NDir (apply_umask E perm)]> fs)
      | Some (NFile _ _) => inl ENOTDIR
      | None => inl ENOENT
      end
  end.

(** [os.MkdirAll(p, perm)], walking down from [done]: directories that exist
    are kept, missing ones are made, a file on the way is an error naming
    it. Nothing is made when it fails. *)
Fixpoint MkdirAll_from (E : Env) (done : path) (rest : list string)
    (perm : Z) (fs : FS) : (path * errno) + FS :=
  match rest with
  | [] => inr fs
  | c :: rest' =>
      let cur := done ++ [c] in
      match stat fs cur with
      | Some (NDir _) => MkdirAll_from E cur rest' perm fs
      | Some (NFile _ _) => inl (cur, ENOTDIR)
      | None =>
          MkdirAll_from E cur rest' perm (<[cur := NDir (apply_umask E perm)]> fs)
      end
  end.

Definition os_MkdirAll (E : Env) (p : path) (perm : Z) (fs : FS)
    : (path * errno) + FS :=
  MkdirAll_from E [] p perm fs.

(** [os.RemoveAll(p)]: the node at [p] and everything below it goes; a path
    that does not exist is no error. *)
Definition os_RemoveAll (p : path) (fs : FS) : FS :=
  filter (fun kv => ¬ p `prefix_of` kv.1) fs.

(** The nodes strictly below [p]. *)
Definition children (p : path) (fs : FS) : FS :=
  filter (fun kv => p `prefix_of` kv.1 ∧ kv.1 ≠ p) fs.

(** The nodes at and below [old], re-rooted at [new]. *)
Definition moved (old new : path) (fs : FS) : FS :=
  map_fold (fun k v acc =>
              if decide (old `prefix_of` k)
              then <[new ++ drop (length old) k := v]> acc else acc) ∅ fs.

(** [os.Rename(old, new)], the [rename] system call on one volume. *)
Definition os_Rename (old new : path) (fs : FS) : errno + FS :=
  match old, new with
  | [], _ | _, [] => inl EBUSY
  | _, _ =>
    match fs !! old with
    | None => inl ENOENT
    | Some n =>
        if decide (old = new) then inr fs
        else if decide (old `prefix_of` new) then inl EINVAL
        else
          match stat fs (parent new) with
          | None => inl ENOENT
          | Some (NFile _ _) => inl ENOTDIR
          | Some (NDir _) =>
              let go := inr (moved old new fs
                             ∪ os_RemoveAll old (os_RemoveAll new fs)) in
              match n, fs !! new with
              | _, None => go
              | NDir _, Some (NFile _ _) => inl ENOTDIR
              | NDir _, Some (NDir _) =>
                  if decide (children new fs = ∅) then go else inl ENOTEMPTY
              | NFile _ _, Some (NDir _) => inl EISDIR
              | NFile _ _, Some (NFile _ _) => go
              end
          end
    end
  end.

(** The bytes of a file after [data] is written at offset 0 over [old]:
    what lay beyond the written bytes stays. *)
Fixpoint string_drop (n : nat) (s : string) : string :=
  match n, s with
  | O, _ => s
  | S n', EmptyString => EmptyString
  | S n', String _ s' => string_drop n' s'
  end.

Definition write_at_0 (data old : string) : string :=
  data +:+ string_drop (String.length data) old.

(** [os.OpenFile(p, os.O_CREATE|os.O_RDWR, perm)]: an existing file is
    opened as it is, a missing one is created empty with [perm] (less the
    umask); the result is the tree and the bytes and mode of the opened
    file. *)
Definition os_OpenFile_create_rdwr (E : Env) (p : path) (perm : Z) (fs : FS)
    : errno + (FS * string * Z) :=
  match stat fs p with
  | Some (NFile d m) => inr (fs, d, m)
  | Some (NDir _) => inl EISDIR
  | None =>
      match stat fs (parent p) with
      | Some (NDir _) =>
          let m := apply_umask E perm in
          inr (<[p := NFile EmptyString m]> fs, EmptyString, m)
      | Some (NFile _ _) => inl ENOTDIR
      | None => inl ENOENT
      end
  end.

(** [ioutil.TempDir("", prefix)]: a new directory in [os.TempDir()] named
    [prefix] followed by a random string; a name that exists is tried again
    with the next random string, [cands] being the strings drawn (Go gives
    up after 10000 of them). *)
Fixpoint ioutil_TempDir (E : Env) (prefix : string) (cands : list string)
    (fs : FS) : ret (path * FS) :=
  match cands with
  | [] => Fail (PathError "mkdirtemp" (path_str (TempRoot E ++ [prefix +:+ "*"])) EEXIST)
  | c :: cands' =>
      let name := TempRoot E ++ [prefix +:+ c] in
      match os_Mkdir E name 448 fs with
      | inr fs' => Val (name, fs')
      | inl EEXIST => ioutil_TempDir E prefix cands' fs
      | inl e => Fail (PathError "mkdir" (path_str name) e)
      end
  end.

(** ** The JSON serde *)

(** A string as [encoding/json] writes it (Go 1.18, HTML escaping on), for
    strings of ASCII bytes: the quote and the backslash are escaped, newline,
    carriage return and tab use their mnemonic, other control characters and
    [<], [>], [&] are written [\u00XX]. *)
Definition json_char (c : ascii) : string :=
  let n := N_of_ascii c in
  if decide (c = dquote) then String "\" (str1 dquote)
  else if decide (c = "\"%char) then "\\"
  else if decide (n = 10%N) then "\n"
  else if decide (n = 13%N) then "\r"
  else if decide (n = 9%N) then "\t"
  else if ((n <? 32) || (n =? 60) || (n =? 62) || (n =? 38))%N
       then "\u00" +:+ str1 (hexdigit (n / 16)) +:+ str1 (hexdigit (n mod 16))
       else str1 c.

Fixpoint json_body (s : string) : string :=
  match s with
  | EmptyString => EmptyString
  | String c s' => json_char c +:+ json_body s'
  end.

Definition json_string (s : string) : string :=
  str1 dquote +:+ json_body s +:+ str1 dquote.

Definition hexval (c : ascii) : option N :=
  let n := N_of_ascii c in
  if ((48 <=? n) && (n <=? 57))%N then Some (n - 48)%N
  else if ((97 <=? n) && (n <=? 102))%N then Some (n - 87)%N
  else if ((65 <=? n) && (n <=? 70))%N then Some (n - 55)%N
  else None.

(** Reads a JSON string after its opening quote: the value (appended to
    [acc]) and what follows the closing quote. Escapes above [\u007f] are
    outside the model. *)
Fixpoint json_unquote (acc : string) (s : string) : option (string * string) :=
  match s with
  | EmptyString => None
  | String c s' =>
      if decide (c = dquote) then Some (acc, s')
      else if decide (c = "\"%char) then
        match s' with
        | String "u" (String "0" (String "0" (String h (String l s'')))) =>
            match hexval h, hexval l with
            | Some a, Some b =>
                if (a <? 8)%N
                then json_unquote (acc +:+ str1 (ascii_of_N (16 * a + b))) s''
                else None
            | _, _ => None
            end
        | String e s'' =>
            if decide (e = dquote) then json_unquote (acc +:+ str1 dquote) s''
            else if decide (e = "\"%char) then json_unquote (acc +:+ "\") s''
            else if decide (e = "/"%char) then json_unquote (acc +:+ "/") s''
            else if decide (e = "n"%char) then json_unquote (acc +:+ str1 (ascii_of_N 10)) s''
            else if decide (e = "r"%char) then json_unquote (acc +:+ str1 (ascii_of_N 13)) s''
            else if decide (e = "t"%char) then json_unquote (acc +:+ str1 (ascii_of_N 9)) s''
            else if decide (e = "b"%char) then json_unquote (acc +:+ str1 (ascii_of_N 8)) s''
            else if decide (e = "f"%char) then json_unquote (acc +:+ str1 (ascii_of_N 12)) s''
            else None
        | EmptyString => None
        end
      else json_unquote (acc +:+ str1 c) s'
  end.

(** [s] without its prefix [lit], when it has it. *)
Fixpoint strip_prefix (lit s : string) : option string :=
  match lit, s with
  | EmptyString, _ => Some s
  | String a lit', String b s' =>
      if decide (a = b) then strip_prefix lit' s' else None
  | String _ _, EmptyString => None
  end.

Definition json_status_key : string := "{" +:+ json_string "status" +:+ ":".
Definition json_message_key : string := "," +:+ json_string "message" +:+ ":".

(** [JSONSerde], the serde based on JSON. [Marshal] is [json.Marshal] of a
    [JobStatus] and never fails; [Unmarshal] is [json.Unmarshal] on the
    documents [Marshal] writes, every other input being reported as invalid
    (the library accepts more: other field orders, white space, [null]). *)
Definition JSONSerde : Serde :=
  mkSerde
    (fun v => Val (json_status_key +:+ json_string (Status v) +:+
                   json_message_key +:+ json_string (Message v) +:+ "}"))
    (fun data =>
       match strip_prefix (json_status_key +:+ str1 dquote) data with
       | None => Fail "invalid character"
       | Some r1 =>
         match json_unquote EmptyString r1 with
         | None => Fail "invalid character"
         | Some (st, r2) =>
           match strip_prefix (json_message_key +:+ str1 dquote) r2 with
           | None => Fail "invalid character"
           | Some r3 =>
             match json_unquote EmptyString r3 with
             | Some (msg, "}") => Val (mkJobStatus st msg)
             | _ => Fail "invalid character"
             end
           end
         end
       end).

(** [defaultSerde] is the default serialization mechanism used. *)
Definition defaultSerde : Serde := JSONSerde.

(** ** Collaborators of the deployer *)

(** [config.Config]: [Entries] maps a release key to the target folder where
    the release is deployed, held here as the absolute path it names. *)
Record Config : Type := mkConfig {
  Entries : gmap string path
}.

Definition TypeReg : ascii := "0"%char.
Definition TypeDir : ascii := "5"%char.

(** One entry of a tar stream: the header fields the deployer reads, the
    bytes of the entry, and the error (if any) that reading them ends in. *)
Record TarEntry : Type := mkTarEntry {
  Name : string;
  Typeflag : ascii;
  Data : string;
  ReadErr : option string
}.

(** What [tar.Reader.Next] yields: the entries in order, then [io.EOF]
    ([None]) or an error. *)
Record TarStream : Type := mkTarStream {
  tar_entries : list TarEntry;
  tar_end : option string
}.

(** A response body as [saveTar] reads it: [gzip.NewReader] fails, or the
    decompressed bytes are a tar stream. *)
Inductive Body : Type :=
  | NotGzip (err : string)
  | Gzip (t : TarStream).

(** [HTTPClient]: the function expected from an HTTP client, by URL. *)
Record HTTPClient : Type := mkHTTPClient {
  Get : string -> ret Body
}.

(** [fakeClient] of the tests. *)
Definition fakeClient (body : Body) (err : option string) : HTTPClient :=
  mkHTTPClient (fun _ => match err with Some e => Fail e | None => Val body end).

(** An event written by the zerolog logger: its level, the error attached
    with [Err], and its message. *)
Record LogEvent : Type := mkLogEvent {
  level : string;
  log_err : option string;
  log_msg : string
}.

Definition Info (msg : string) : LogEvent := mkLogEvent "info" None msg.
Definition ErrEvent (err msg : string) : LogEvent := mkLogEvent "error" (Some err) msg.

(** ** The file deployer *)

(** [FileDeployer]: a deployer that deploys releases on disk. The embedded
    mutex guards [stop]; a read or write of [stop] is one atomic step. *)
Record FileDeployer : Type := mkFileDeployer {
  db : DB;
  config : Config;
  jobs : chan;
  stop : bool;
  client : HTTPClient;
  logger : list LogEvent;
  serde : Serde
}.

Definition set_db (d : DB) (fd : FileDeployer) : FileDeployer :=
  mkFileDeployer d (config fd) (jobs fd) (stop fd) (client fd) (logger fd) (serde fd).
Definition set_jobs (c : chan) (fd : FileDeployer) : FileDeployer :=
  mkFileDeployer (db fd) (config fd) c (stop fd) (client fd) (logger fd) (serde fd).
Definition set_stop (b : bool) (fd : FileDeployer) : FileDeployer :=
  mkFileDeployer (db fd) (config fd) (jobs fd) b (client fd) (logger fd) (serde fd).
Definition log (e : LogEvent) (fd : FileDeployer) : FileDeployer :=
  mkFileDeployer (db fd) (config fd) (jobs fd) (stop fd) (client fd)
                 (logger fd ++ [e]) (serde fd).

(** [NewFileDeployer] returns a new initialized file deployer. *)
Definition NewFileDeployer (d : DB) (conf : Config) (cl : HTTPClient)
    (lg : list LogEvent) : FileDeployer :=
  mkFileDeployer d conf ChanNil false cl lg defaultSerde.

(** [getStop] safely returns the stop status of the deployer. *)
Definition getStop (fd : FileDeployer) : bool := stop fd.

(** [saveJobStatus] saves the status of a job onto the database. *)
Definition saveJobStatus (jobID status message : string) (fd : FileDeployer)
    : option string * FileDeployer :=
  let jobStatus := mkJobStatus status message in
  match Marshal (serde fd) jobStatus with
  | Fail err => (Some ("failed to marshal status: " +:+ err), fd)
  | Val buf =>
      match db_Set jobID buf (db fd) with
      | Fail err => (Some ("failed to save status: " +:+ err), fd)
      | Val d => (None, set_db d fd)
      end
  end.

(** [Deploy] adds a new job to the queue; [jid] is the identifier [newJob]
    draws. *)
Definition Deploy (jid : string) (releaseID releaseURL : string)
    (fd : FileDeployer) : outcome (ret string) * FileDeployer :=
  let fd := log (Info ("deploying release " +:+ fmt_q releaseID +:+
                       " from " +:+ fmt_q releaseURL)) fd in
  if getStop fd then (Returns (Fail "deployer is stopped"), fd)
  else
    let job := newJob jid releaseID releaseURL in
    match saveJobStatus (id job) "created" "job has been created" fd with
    | (Some err, fd) =>
        (Returns (Fail ("failed to set job status: " +:+ err)), fd)
    | (None, fd) =>
        match try_send job (jobs fd) with
        | Sent c => (Returns (Val (id job)), set_jobs c fd)
        | WouldBlock => (Returns (Fail "buffer is full, re-try later"), fd)
        | SendPanic => (Panics "send on closed channel", fd)
        end
    end.

(** [GetStatus] returns the status of a job. *)
Definition GetStatus (key : string) (fd : FileDeployer) : ret JobStatus :=
  match db_Get key (db fd) with
  | Fail err =>
      if decide (err = ErrNotFound)
      then Fail ("key " +:+ fmt_q key +:+ " not found")
      else Fail ("failed to get status: " +:+ err)
  | Val statusBuf =>
      match Unmarshal (serde fd) statusBuf with
      | Fail err => Fail ("failed to unmarshal job status: " +:+ err)
      | Val jobStatus => Val jobStatus
      end
  end.

(** [Stop]: closes the job channel, then sets the stop flag. *)
Definition Stop (fd : FileDeployer) : outcome FileDeployer :=
  match close_chan (jobs fd) with
  | Panics msg => Panics msg
  | Returns c => Returns (set_stop true (set_jobs c fd))
  end.

(** ** The installer *)

Definition perm_0755 : Z := 493.

(** One turn of the loop of [untar] on a header: the error it returns with
    (if any) and the file tree it leaves. *)
Definition untar_entry (E : Env) (dest : path) (header : TarEntry) (fs : FS)
    : option string * FS :=
  let target := filepath_Join dest (Name header) in
  if decide (Typeflag header = TypeDir) then
    match stat fs target with
    | Some _ => (None, fs)
    | None =>
        match os_MkdirAll E target perm_0755 fs with
        | inl (p, e) =>
            (Some ("failed to create dir " +:+ path_str target +:+ ": " +:+
                   PathError "mkdir" (path_str p) e), fs)
        | inr fs' => (None, fs')
        end
    end
  else if decide (Typeflag header = TypeReg) then
    match os_OpenFile_create_rdwr E target perm_0755 fs with
    | inl e =>
        (Some ("failed to open file " +:+ path_str target +:+ ": " +:+
               PathError "open" (path_str target) e), fs)
    | inr (fs', old, m) =>
        let fs'' := <[target := NFile (write_at_0 (Data header) old) m]> fs' in
        match ReadErr header with
        | Some err =>
            (Some ("failed to copy file " +:+ path_str target +:+ ": " +:+ err),
             fs'')
        | None => (None, fs'')
        end
    end
  else (None, fs).

(** [untar] walks through the tar's content and extracts the elements. *)
Fixpoint untar (E : Env) (dest : path) (headers : list TarEntry)
    (fin : option string) (fs : FS) : option string * FS :=
  match headers with
  | [] =>
      match fin with
      | None => (None, fs)
      | Some err => (Some ("failed to get next: " +:+ err), fs)
      end
  | header :: rest =>
      match untar_entry E dest header fs with
      | (Some err, fs') => (Some err, fs')
      | (None, fs') => untar E dest rest fin fs'
      end
  end.

(** [saveTar] extracts a .tar.gz to the provided destination. It expects the
    tar.gz to be a folder. *)
Definition saveTar (E : Env) (r : Body) (dest : path) (fs : FS)
    : ret string * FS :=
  match r with
  | NotGzip err => (Fail ("failed to create reader: " +:+ err), fs)
  | Gzip tr =>
      match tar_entries tr with
      | [] =>
          (Fail ("failed to read the first header: " +:+
                 default "EOF" (tar_end tr)), fs)
      | header :: rest =>
          if decide (Typeflag header ≠ TypeDir)
          then (Fail "tar must be a folder", fs)
          else
            let tarRootFolder := Name header in
            let tmpRootTarget := filepath_Join dest tarRootFolder in
            match os_MkdirAll E tmpRootTarget perm_0755 fs with
            | inl (p, e) =>
                (Fail ("failed to create root dir " +:+ path_str tmpRootTarget
                       +:+ ": " +:+ PathError "mkdir" (path_str p) e), fs)
            | inr fs1 =>
                match untar E dest rest (tar_end tr) fs1 with
                | (Some err, fs2) => (Fail ("failed to extract: " +:+ err), fs2)
                | (None, fs2) => (Val tarRootFolder, fs2)
                end
            end
      end
  end.

(** [handleJob] is called by the queue processor and processes a job. It
    downloads, extracts, and deploys a release. [cands] are the random
    strings [ioutil.TempDir] draws. The result is the error, the log and the
    file tree; the deferred [os.RemoveAll(tmpDest)] runs on every return
    after the temporary folder is made. *)
Definition handleJob (E : Env) (cands : list string) (job : job)
    (fd : FileDeployer) (fs : FS) : option string * FileDeployer * FS :=
  let fd := log (Info ("starting job " +:+ fmt_q (id job) +:+ " (release " +:+
                       fmt_q (releaseID job) +:+ ")")) fd in
  match Entries (config fd) !! releaseID job with
  | None =>
      (Some ("releaseID " +:+ fmt_q (releaseID job) +:+
             " not found from the config"), fd, fs)
  | Some targetFolder =>
      match Get (client fd) (releaseURL job) with
      | Fail err => (Some ("failed to get file: " +:+ err), fd, fs)
      | Val res =>
          match ioutil_TempDir E "hodor" cands fs with
          | Fail err => (Some ("failed to create tmp dir: " +:+ err), fd, fs)
          | Val (tmpDest, fs) =>
              let fd := log (Info ("job " +:+ fmt_q (id job) +:+
                                   " using temp folder " +:+
                                   fmt_q (path_str tmpDest) +:+ " (release " +:+
                                   fmt_q (releaseID job) +:+ ")")) fd in
              match saveTar E res tmpDest fs with
              | (Fail err, fs) =>
                  (Some ("failed to save tar file: " +:+ err), fd,
                   os_RemoveAll tmpDest fs)
              | (Val tarRootFolder, fs) =>
                  let fs := os_RemoveAll targetFolder fs in
                  let old := filepath_Join tmpDest tarRootFolder in
                  match os_Rename old targetFolder fs with
                  | inl e =>
                      (Some ("failed to rename folder: " +:+
                             LinkError "rename" (path_str old)
                                       (path_str targetFolder) e),
                       fd, os_RemoveAll tmpDest fs)
                  | inr fs =>
                      let fd := log (Info ("job " +:+ fmt_q (id job) +:+
                                           " done (release " +:+
                                           fmt_q (releaseID job) +:+ ")")) fd in
                      (None, fd, os_RemoveAll tmpDest fs)
                  end
              end
          end
      end
  end.

(** ** The worker *)

(** The body of the loop of [processJobs] for a job that passed the stop
    check: the job is handled and its outcome saved; a failure to save is
    logged. *)
Definition processJob (E : Env) (cands : list string) (job : job)
    (fd : FileDeployer) (fs : FS) : FileDeployer * FS :=
  match handleJob E cands job fd fs with
  | (Some err, fd, fs) =>
      match saveJobStatus (id job) "failed" err fd with
      | (Some err2, fd) =>
          (log (ErrEvent err2 ("job failed: failed to save status. Error was: "
                               +:+ err)) fd, fs)
      | (None, fd) => (fd, fs)
      end
  | (None, fd, fs) =>
      match saveJobStatus (id job) "ok" "job done" fd with
      | (Some err, fd) =>
          (log (ErrEvent err "job ok: failed to save status") fd, fs)
      | (None, fd) => (fd, fs)
      end
  end.

(** How a run of the worker loop ends when no one else touches the
    deployer meanwhile. *)
Inductive loop_end : Type :=
  | StopSeen        (* the stop flag was true: [return] *)
  | ChanClosed      (* the channel is closed and empty: the range ends *)
  | Waiting.        (* the channel is open and empty: the receive blocks *)

(** The loop of [processJobs] over the jobs buffered in the channel; [rnd n]
    are the random strings drawn in the [n]-th turn. The result is the
    deployer, the file tree, the jobs left in the channel and whether the
    stop flag ended the loop. *)
Fixpoint range_jobs (E : Env) (rnd : nat -> list string) (n : nat)
    (buf : list job) (fd : FileDeployer) (fs : FS)
    : FileDeployer * FS * list job * bool :=
  match buf with
  | [] => (fd, fs, [], false)
  | job :: buf' =>
      if getStop fd then (fd, fs, buf', true)
      else
        let '(fd', fs') := processJob E (rnd n) job fd fs in
        range_jobs E rnd (S n) buf' fd' fs'
  end.

(** [processJobs] loops over jobs and processes them. *)
Definition processJobs (E : Env) (rnd : nat -> list string)
    (fd : FileDeployer) (fs : FS) : FileDeployer * FS * loop_end :=
  match jobs fd with
  | ChanNil => (fd, fs, Waiting)
  | Chan n buf cl =>
      let '(fd', fs', rest, stopped) := range_jobs E rnd 0 buf fd fs in
      (set_jobs (Chan n rest cl) fd', fs',
       if stopped then StopSeen else if cl then ChanClosed else Waiting)
  end.

(** [Start]: makes the channel, clears the stop flag, and runs the loop. *)
Definition Start (E : Env) (rnd : nat -> list string)
    (fd : FileDeployer) (fs : FS) : FileDeployer * FS * loop_end :=
  processJobs E rnd (set_stop false (set_jobs (make_chan jobSize) fd)) fs.

(** ** Sequences of submissions *)

(** A call of [Deploy]: the identifier it will draw and its arguments. *)
Record request : Type := mkRequest {
  req_id : string;
  req_release : string;
  req_url : string
}.

(** The calls of [reqs] made one after the other, oldest first: what each
    returned, and the deployer after the last. A panic ends the run. *)
Fixpoint deploy_all (reqs : list request) (fd : FileDeployer)
    : list (outcome (ret string)) * FileDeployer :=
  match reqs with
  | [] => ([], fd)
  | r :: reqs' =>
      match Deploy (req_id r) (req_release r) (req_url r) fd with
      | (Panics msg, fd') => ([Panics msg], fd')
      | (Returns v, fd') =>
          let '(outs, fd'') := deploy_all reqs' fd' in
          (Returns v :: outs, fd'')
      end
  end.

(** ** Statuses and what the stores hold *)

Definition created_status : JobStatus :=
  mkJobStatus "created" "job has been created".
Definition ok_status : JobStatus := mkJobStatus "ok" "job done".
Definition failed_status (message : string) : JobStatus :=
  mkJobStatus "failed" message.

(** The serde reads back the status [v] from the bytes it writes for it. *)
Definition serde_faithful (s : Serde) (v : JobStatus) : Prop :=
  ∀ buf, Marshal s v = Val buf → Unmarshal s buf = Val v.

(** [needle] occurs in [s]. *)
Fixpoint contains (needle s : string) : bool :=
  match strip_prefix needle s with
  | Some _ => true
  | None => match s with
            | EmptyString => false
            | String _ s' => contains needle s'
            end
  end.

(** A deployer that accepts submissions: not stopped, the database open,
    the serde writing the [created] status. *)
Definition accepting (fd : FileDeployer) : Prop :=
  stop fd = false ∧ db_closed (db fd) = false ∧
  ∃ buf, Marshal (serde fd) created_status = Val buf.

Definition job_of_request (r : request) : job :=
  newJob (req_id r) (req_release r) (req_url r).

(** The message of the install that finds no target folder for a release. *)
Definition release_not_found (releaseID : string) : string :=
  "releaseID " +:+ fmt_q releaseID +:+ " not found from the config".

(** ** File trees and archives *)

Definition is_dir (o : option node) : bool :=
  match o with Some (NDir _) => true | _ => false end.

(** A file tree as the operating system keeps it: the root is not a node of
    the map, and every node lies in a directory. *)
Definition wf_fs (fs : FS) : Prop :=
  map_Forall (fun p _ => p ≠ [] ∧ is_dir (stat fs (parent p)) = true) fs.

#[global] Instance wf_fs_dec fs : Decision (wf_fs fs).
Proof. unfold wf_fs. apply _. Defined.


(** ** The deployer at work: callers, worker and stopper side by side *)

(** Where the worker goroutine stands in [Start] and [processJobs]. *)
Inductive worker_state : Type :=
  | WIdle                 (* [Start] has not been called *)
  | WRecv                 (* at the receive of [for job := range fd.jobs] *)
  | WGot (j : job)        (* a job received, before [fd.getStop()] *)
  | WRun (j : job)        (* stop flag seen false, before [fd.handleJob] *)
  | WDone.                (* [processJobs] has returned *)

(** Where the goroutine calling [Stop] stands. *)
Inductive stopper_state : Type :=
  | SIdle                 (* [Stop] has not been called *)
  | SClosed               (* after [close(fd.jobs)], before the flag is set *)
  | SDone.                (* [Stop] has returned *)

(** A call of [Deploy] under way. *)
Inductive caller_state : Type :=
  | DChecked (jid releaseID releaseURL : string) (* stop flag seen false *)
  | DSaved (j : job).     (* status saved, before the [select] *)

Record Sys : Type := mkSys {
  sys_fd : FileDeployer;
  sys_fs : FS;
  worker : worker_state;
  stopper : stopper_state;
  callers : list caller_state;
  panicked : bool
}.

(** One atomic action of one goroutine. The mutex makes the reads and writes
    of the stop flag atomic, the channel its sends, receives and close, the
    database its transactions. *)
Inductive step (E : Env) : Sys → Sys → Prop :=
  | step_start fd fs st cs :
      step E (mkSys fd fs WIdle st cs false)
             (mkSys (set_stop false (set_jobs (make_chan jobSize) fd)) fs
                    WRecv st cs false)
  | step_recv fd fs st cs j c :
      recv (jobs fd) = Received j c →
      step E (mkSys fd fs WRecv st cs false)
             (mkSys (set_jobs c fd) fs (WGot j) st cs false)
  | step_range_done fd fs st cs :
      recv (jobs fd) = RangeDone →
      step E (mkSys fd fs WRecv st cs false)
             (mkSys fd fs WDone st cs false)
  | step_stop_seen fd fs st cs j :
      getStop fd = true →
      step E (mkSys fd fs (WGot j) st cs false)
             (mkSys fd fs WDone st cs false)
  | step_stop_unseen fd fs st cs j :
      getStop fd = false →
      step E (mkSys fd fs (WGot j) st cs false)
             (mkSys fd fs (WRun j) st cs false)
  | step_process fd fs st cs j cands fd' fs' :
      processJob E cands j fd fs = (fd', fs') →
      step E (mkSys fd fs (WRun j) st cs false)
             (mkSys fd' fs' WRecv st cs false)
  | step_stop_close fd fs w cs c :
      close_chan (jobs fd) = Returns c →
      step E (mkSys fd fs w SIdle cs false)
             (mkSys (set_jobs c fd) fs w SClosed cs false)
  | step_stop_close_panic fd fs w cs msg :
      close_chan (jobs fd) = Panics msg →
      step E (mkSys fd fs w SIdle cs false)
             (mkSys fd fs w SIdle cs true)
  | step_stop_flag fd fs w cs :
      step E (mkSys fd fs w SClosed cs false)
             (mkSys (set_stop true fd) fs w SDone cs false)
  | step_deploy_stopped fd fs w st cs releaseID releaseURL :
      getStop fd = true →
      step E (mkSys fd fs w st cs false)
             (mkSys (log (Info ("deploying release " +:+ fmt_q releaseID +:+
                                " from " +:+ fmt_q releaseURL)) fd)
                    fs w st cs false)
  | step_deploy_check fd fs w st cs jid releaseID releaseURL :
      getStop fd = false →
      step E (mkSys fd fs w st cs false)
             (mkSys (log (Info ("deploying release " +:+ fmt_q releaseID +:+
                                " from " +:+ fmt_q releaseURL)) fd)
                    fs w st (DChecked jid releaseID releaseURL :: cs) false)
  | step_deploy_save_fail fd fs w st cs1 cs2 jid releaseID releaseURL err fd' :
      saveJobStatus jid "created" "job has been created" fd = (Some err, fd') →
      step E (mkSys fd fs w st (cs1 ++ DChecked jid releaseID releaseURL :: cs2) false)
             (mkSys fd' fs w st (cs1 ++ cs2) false)
  | step_deploy_save fd fs w st cs1 cs2 jid releaseID releaseURL fd' :
      saveJobStatus jid "created" "job has been created" fd = (None, fd') →
      step E (mkSys fd fs w st (cs1 ++ DChecked jid releaseID releaseURL :: cs2) false)
             (mkSys fd' fs w st
                    (cs1 ++ DSaved (newJob jid releaseID releaseURL) :: cs2) false)
  | step_deploy_sent fd fs w st cs1 cs2 j c :
      try_send j (jobs fd) = Sent c →
      step E (mkSys fd fs w st (cs1 ++ DSaved j :: cs2) false)
             (mkSys (set_jobs c fd) fs w st (cs1 ++ cs2) false)
  | step_deploy_full fd fs w st cs1 cs2 j :
      try_send j (jobs fd) = WouldBlock →
      step E (mkSys fd fs w st (cs1 ++ DSaved j :: cs2) false)
             (mkSys fd fs w st (cs1 ++ cs2) false)
  | step_deploy_panic fd fs w st cs1 cs2 j :
      try_send j (jobs fd) = SendPanic →
      step E (mkSys fd fs w st (cs1 ++ DSaved j :: cs2) false)
             (mkSys fd fs w st (cs1 ++ DSaved j :: cs2) true).

(** Any number of steps. *)
Definition steps (E : Env) : Sys → Sys → Prop := rtc (step E).

(** The jobs waiting in the queue, and the one the worker holds but has not
    yet checked the stop flag for. *)
Definition queued (s : Sys) : list job :=
  match worker s with
  | WGot j => j :: chan_buf (jobs (sys_fd s))
  | _ => chan_buf (jobs (sys_fd s))
  end.

(** The database holds, under [k], the bytes of the [created] status. *)
Definition holds_created (fd : FileDeployer) (k : string) : Prop :=
  ∃ buf, Marshal (serde fd) created_status = Val buf ∧
         items (db fd) !! k = Some buf.

(** The step [s → s1] is the first action of a call of [Stop]. *)
Definition Stop_called (E : Env) (s s1 : Sys) : Prop :=
  step E s s1 ∧ stopper s = SIdle ∧ stopper s1 = SClosed.

(** The system when the program starts: a new deployer, no goroutine of it
    under way. *)
Definition initial_sys (d : DB) (conf : Config) (cl : HTTPClient)
    (lg : list LogEvent) (fs : FS) : Sys :=
  mkSys (NewFileDeployer d conf cl lg) fs WIdle SIdle [] false.

(** A state the system can be in. *)
Definition reachable (E : Env) (s : Sys) : Prop :=
  ∃ d conf cl lg fs, steps E (initial_sys d conf cl lg fs) s.

(** Every job in the queue when [Stop] is called keeps, in all that
    follows, the status it then had. *)
Definition queued_at_Stop_never_processed (E : Env) : Prop :=
  ∀ s s1 s' j,
    reachable E s → Stop_called E s s1 → steps E s1 s' → j ∈ queued s →
    GetStatus (id j) (sys_fd s') = GetStatus (id j) (sys_fd s).

(** The system with another deployer, and with the panic flag raised. *)
Definition with_fd (fd : FileDeployer) (s : Sys) : Sys :=
  mkSys fd (sys_fs s) (worker s) (stopper s) (callers s) (panicked s).

(** ** Latest tags *)

Module Tags.

(** Modelled from the spec: the tag of a job, the record of the latest tag
    of each release and [GetLatestTag]. The tests and the HTTP server call
    [Deploy] with a tag and [GetLatestTag], the deployer source at hand has
    neither. The design document says: a job carries an optional
    caller-supplied tag; the tag record maps a release key to the last
    successfully applied tag, is written only on a successful install that
    carried a non-empty tag (after the terminal status is persisted), lives
    in a key space of its own, and reads as the sentinel [unknown], without
    error, when absent. *)
Record tagged_job : Type := mkTaggedJob {
  the_job : job;
  tag : string
}.

(** Modelled from the spec: the deployer with its table of latest tags. *)
Record TagDeployer : Type := mkTagDeployer {
  deployer : FileDeployer;
  tags : DB
}.

Definition unknown : string := "unknown".

(** Modelled from the spec: [GetLatestTag(releaseKey) -> (tag, error)]. *)
Definition GetLatestTag (releaseKey : string) (td : TagDeployer) : ret string :=
  match db_Get releaseKey (tags td) with
  | Val t => Val t
  | Fail err =>
      if decide (err = ErrNotFound) then Val unknown
      else Fail ("failed to get tag: " +:+ err)
  end.

(** The install of the job succeeds. *)
Definition install_ok (E : Env) (cands : list string) (j : job)
    (fd : FileDeployer) (fs : FS) : bool :=
  match handleJob E cands j fd fs with
  | (None, _, _) => true
  | _ => false
  end.

(** Modelled from the spec: the worker's turn for a tagged job. The job is
    processed as [processJob] does; after a successful install that carried
    a non-empty tag the tag is recorded for the release key. *)
Definition processTaggedJob (E : Env) (cands : list string) (tj : tagged_job)
    (td : TagDeployer) (fs : FS) : TagDeployer * FS :=
  let '(fd', fs') := processJob E cands (the_job tj) (deployer td) fs in
  if install_ok E cands (the_job tj) (deployer td) fs
     && negb (String.eqb (tag tj) EmptyString)
  then
    match db_Set (releaseID (the_job tj)) (tag tj) (tags td) with
    | Val t => (mkTagDeployer fd' t, fs')
    | Fail _ => (mkTagDeployer fd' (tags td), fs')
    end
  else (mkTagDeployer fd' (tags td), fs').

(** Modelled from the spec: the worker's turns for the jobs of a list, one
    after the other; [rnd n] are the random strings of the [n]-th turn. *)
Fixpoint processTaggedJobs (E : Env) (rnd : nat -> list string) (n : nat)
    (tjs : list tagged_job) (td : TagDeployer) (fs : FS) : TagDeployer * FS :=
  match tjs with
  | [] => (td, fs)
  | tj :: tjs' =>
      let '(td', fs') := processTaggedJob E (rnd n) tj td fs in
      processTaggedJobs E rnd (S n) tjs' td' fs'
  end.

(** The successful installs that carried a non-empty tag in such a run, in
    order: the release key and the tag of each. *)
Fixpoint tagged_installs (E : Env) (rnd : nat -> list string) (n : nat)
    (tjs : list tagged_job) (td : TagDeployer) (fs : FS)
    : list (string * string) :=
  match tjs with
  | [] => []
  | tj :: tjs' =>
      let '(td', fs') := processTaggedJob E (rnd n) tj td fs in
      let rest := tagged_installs E rnd (S n) tjs' td' fs' in
      if install_ok E (rnd n) (the_job tj) (deployer td) fs
         && negb (String.eqb (tag tj) EmptyString)
      then (releaseID (the_job tj), tag tj) :: rest
      else rest
  end.

End Tags.

(** ** Fixtures *)

(** A system with the usual umask and temporary folder, a small file tree
    with an installed site, and archives in the manner of the tests. *)
Module Fixtures.

Definition E0 : Env := mkEnv ["tmp"] 18.

Definition site : path := ["srv"; "site"].

Definition fs0 : FS :=
  list_to_map [ (["tmp"], NDir 511);
                (["srv"], NDir 493);
                (site, NDir 493);
                (site ++ ["old.txt"], NFile "OLD" 420) ].

Definition dir_entry (name : string) : TarEntry :=
  mkTarEntry name TypeDir EmptyString None.
Definition file_entry (name data : string) : TarEntry :=
  mkTarEntry name TypeReg data None.

(** A release folder with two files. *)
Definition release_ab : Body :=
  Gzip (mkTarStream [ dir_entry "release/";
                      file_entry "release/a" "AAAA";
                      file_entry "release/b" "BB" ] None).

(** The same name twice, the longer bytes first. *)
Definition release_twice : Body :=
  Gzip (mkTarStream [ dir_entry "release/";
                      file_entry "release/a" "AAAA";
                      file_entry "release/a" "BB" ] None).

(** An archive made of one file, as in [TestSaveTar_Not_Folder]. *)
Definition release_file : Body :=
  Gzip (mkTarStream [ file_entry "release.txt" "ZZ" ] None).

Definition conf0 : Config := mkConfig {[ "XX" := site ]}.

Definition db0 : DB := mkDB ∅ false.

Definition new_fd (body : Body) : FileDeployer :=
  NewFileDeployer db0 conf0 (fakeClient body None) [].

(** The deployer once [Start] has made the channel. *)
Definition started_fd (body : Body) : FileDeployer :=
  set_stop false (set_jobs (make_chan jobSize) (new_fd body)).

Definition job1 : job := mkJob "id1" "XX" "http://host/release.tar.gz".
Definition job_unmapped : job := mkJob "id2" "YY" "http://host/release.tar.gz".

Definition rnd0 : nat -> list string := fun _ => ["123"].

(** The started deployer after [job1] was submitted. *)
Definition fd_job1 : FileDeployer :=
  (Deploy "id1" "XX" "http://host/release.tar.gz" (started_fd release_ab)).2.

(** The worker waits at the receive, [job1] is in the queue, nobody has
    called [Stop]. *)
Definition sys_job1 : Sys := mkSys fd_job1 fs0 WRecv SIdle [] false.

(** [job1] with the tag [v1.2.3], and a deployer with an empty table of
    tags. *)
Definition tagged1 : Tags.tagged_job := Tags.mkTaggedJob job1 "v1.2.3".
Definition td0 : Tags.TagDeployer :=
  Tags.mkTagDeployer (started_fd release_ab) (mkDB ∅ false).

Definition job2 : job := mkJob "id2" "XX" "http://host/release2.tar.gz".

(** The started deployer after [job1] and [job2] were submitted. *)
Definition fd_job12 : FileDeployer :=
  (Deploy "id2" "XX" "http://host/release2.tar.gz" fd_job1).2.

(** [Stop] has returned while the worker holds [job1], past the check of
    the stop flag and not yet installed; [job2] waits in the queue. *)
Definition sys_mid_install : Sys :=
  mkSys (set_stop true (set_jobs (Chan jobSize [job2] true) fd_job12))
        fs0 (WRun job1) SDone [] false.

Definition numbered (n : nat) : request :=
  mkRequest (pretty n) "XX" "http://host/release.tar.gz".

Definition fifty : list request := map numbered (seq 0 50).

End Fixtures.

(** ** Jobs under way *)

(** The jobs that callers have saved the status of and are about to send. *)
Definition saved_jobs (cs : list caller_state) : list job :=
  omap (fun c => match c with
                 | DSaved j => Some j
                 | DChecked _ _ _ => None
                 end) cs.

(** The jobs on their way: in the worker's hands, in the queue, or saved by
    a caller about to send them. *)
Definition in_flight (s : Sys) : list job :=
  match worker s with
  | WGot j | WRun j => [j]
  | _ => []
  end ++ chan_buf (jobs (sys_fd s)) ++ saved_jobs (callers s).

(** The status the worker records for an install that ended with [err]. *)
Definition recorded_status (err : option string) : JobStatus :=
  match err with None => ok_status | Some e => failed_status e end.

(** The channel, when made, is the one [Start] makes and holds no more jobs
    than it has room for. *)
Definition chan_within_capacity (c : chan) : Prop :=
  match c with
  | ChanNil => True
  | Chan n buf _ => n = jobSize ∧ (length buf ≤ jobSize)%nat
  end.

(** The database holds, under [k], the bytes of a terminal status: [ok]
    with [job done], or [failed] with some message. *)
Definition holds_terminal (fd : FileDeployer) (k : string) : Prop :=
  ∃ st buf, (st = ok_status ∨ ∃ err, st = failed_status err) ∧
            Marshal (serde fd) st = Val buf ∧
            items (db fd) !! k = Some buf.

(** The names at and above [tmp] all exist. *)
Definition above_exist (tmp : path) (fs : FS) : Prop :=
  ∀ q, q `prefix_of` tmp → q ≠ [] → is_Some (fs !! q).

(** ** Deciding equality of results *)

#[global] Instance ret_eq_dec {A : Type} `{EqDecision A} : EqDecision (ret A).
Proof. solve_decision. Defined.

(** ** New ids *)

(** The ids drawn by the calls of [Deploy] that have not yet saved the
    status. *)
Definition drawn_ids (cs : list caller_state) : list string :=
  omap (fun c => match c with
                 | DChecked jid _ _ => Some jid
                 | DSaved _ => None
                 end) cs.

(** [xid.New()] in [newJob] gives an id that was never given before: where
    the step is a call of [Deploy] drawing its id, the id is no key of the
    database and no call under way has drawn it. *)
Definition draws_new_id (s s' : Sys) : Prop :=
  ∀ jid releaseID releaseURL,
    callers s' = DChecked jid releaseID releaseURL :: callers s →
    items (db (sys_fd s)) !! jid = None ∧ jid ∉ drawn_ids (callers s).

(** A step of the system, the ids drawn being new. *)
Definition step_new_ids (E : Env) (s s' : Sys) : Prop :=
  step E s s' ∧ draws_new_id s s'.

(** A state the system can be in, the ids drawn being new. *)
Definition reachable_new_ids (E : Env) (s : Sys) : Prop :=
  ∃ d conf cl lg fs, rtc (step_new_ids E) (initial_sys d conf cl lg fs) s.

(** The jobs [js] have ids of their own and the [created] status in the
    open database of [fd]; the ids [ds] are apart and no keys of it. *)
Definition created_apart (fd : FileDeployer) (js : list job)
    (ds : list string) : Prop :=
  NoDup (id <$> js) ∧
  (∀ j, j ∈ js → holds_created fd (id j) ∧ db_closed (db fd) = false) ∧
  NoDup ds ∧
  (∀ jid, jid ∈ ds → items (db fd) !! jid = None).

(** So it is of the jobs on their way and of the ids drawn and not yet
    saved. *)
Definition on_their_way_created (s : Sys) : Prop :=
  created_apart (sys_fd s) (in_flight s) (drawn_ids (callers s)).

(** * Properties *)

(** ** The status store *)

Lemma getStop_log e fd : getStop (log e fd) = getStop fd.
Proof. reflexivity. Qed.

(** A status that was saved is what [GetStatus] reads, when the serde reads
    back what it wrote. *)
Lemma GetStatus_after_save jobID status message fd fd' :
  saveJobStatus jobID status message fd = (None, fd') →
  serde_faithful (serde fd) (mkJobStatus status message) →
  GetStatus jobID fd' = Val (mkJobStatus status message).
Proof.
  unfold saveJobStatus, GetStatus, db_Set, db_Get. intros Hsave Hser.
  destruct (Marshal (serde fd) _) as [buf|err] eqn:Hm; [|congruence].
  destruct (db_closed (db fd)) eqn:Hc; [congruence|].
  injection Hsave as <-. simpl.
  rewrite lookup_insert_eq. by rewrite (Hser buf Hm).
Qed.

(** Saving a status changes the database only, and only at the job's key. *)
Lemma saveJobStatus_frame jobID status message fd err fd' :
  saveJobStatus jobID status message fd = (err, fd') →
  config fd' = config fd ∧ jobs fd' = jobs fd ∧ stop fd' = stop fd ∧
  client fd' = client fd ∧ logger fd' = logger fd ∧ serde fd' = serde fd ∧
  db_closed (db fd') = db_closed (db fd) ∧
  ∀ k, k ≠ jobID → items (db fd') !! k = items (db fd) !! k.
Proof.
  unfold saveJobStatus, db_Set. intros H.
  destruct (Marshal (serde fd) _); [|by injection H as <- <-].
  destruct (db_closed (db fd)) eqn:Hc; injection H as <- <-; [done|].
  simpl. repeat split; try done. intros k Hk. by rewrite lookup_insert_ne.
Qed.

(** A save that fails leaves the deployer as it was. *)
Lemma saveJobStatus_fail jobID status message fd err fd' :
  saveJobStatus jobID status message fd = (Some err, fd') → fd' = fd.
Proof.
  unfold saveJobStatus. intros H.
  destruct (Marshal (serde fd) _); [|by injection H].
  destruct (db_Set _ _ _); by injection H.
Qed.

(** A save succeeds when the serde writes the status and the database is
    open, and then the database holds the bytes written. *)
Lemma saveJobStatus_ok jobID status message fd buf :
  Marshal (serde fd) (mkJobStatus status message) = Val buf →
  db_closed (db fd) = false →
  saveJobStatus jobID status message fd
  = (None, set_db (mkDB (<[jobID := buf]> (items (db fd))) false) fd).
Proof.
  unfold saveJobStatus, db_Set. by intros -> ->.
Qed.

(** ** Submission *)

(** What [Deploy] does when it gets as far as the [select]. *)
Lemma Deploy_unfold jid releaseID releaseURL fd :
  let fd0 := log (Info ("deploying release " +:+ fmt_q releaseID +:+
                        " from " +:+ fmt_q releaseURL)) fd in
  Deploy jid releaseID releaseURL fd =
  if stop fd then (Returns (Fail "deployer is stopped"), fd0)
  else match saveJobStatus jid "created" "job has been created" fd0 with
       | (Some err, fd1) =>
           (Returns (Fail ("failed to set job status: " +:+ err)), fd1)
       | (None, fd1) =>
           match try_send (newJob jid releaseID releaseURL) (jobs fd1) with
           | Sent c => (Returns (Val jid), set_jobs c fd1)
           | WouldBlock => (Returns (Fail "buffer is full, re-try later"), fd1)
           | SendPanic => (Panics "send on closed channel", fd1)
           end
       end.
Proof. reflexivity. Qed.



(** C10. When [Deploy] fails because the queue is full, the status [created]
    of the job id it drew is in the database all the same: no job was put in
    the queue, and a later [GetStatus] on that id reports [created], not a
    not-found error. *)
Theorem Deploy_full_leaves_created jid releaseID releaseURL fd fd' :
  Deploy jid releaseID releaseURL fd
  = (Returns (Fail "buffer is full, re-try later"), fd') →
  serde_faithful (serde fd) created_status →
  GetStatus jid fd' = Val created_status ∧
  is_Some (items (db fd') !! jid) ∧
  jobs fd' = jobs fd.
Proof.
  rewrite Deploy_unfold. cbv zeta. intros H Hser.
  destruct (stop fd); [discriminate|].
  destruct (saveJobStatus _ _ _ _) as [[err|] fd1] eqn:Hsave; [discriminate|].
  pose proof (GetStatus_after_save _ _ _ _ _ Hsave Hser) as Hget.
  destruct (saveJobStatus_frame _ _ _ _ _ _ Hsave) as (_ & Hjobs & _).
  destruct (try_send _ (jobs fd1)) as [c| |] eqn:Hsend; try discriminate.
  injection H as <-. split; [exact Hget|]. split; [|exact Hjobs].
  revert Hget. unfold GetStatus, db_Get.
  destruct (db_closed (db fd1)); [discriminate|].
  destruct (items (db fd1) !! jid); [eauto|]. by rewrite decide_True.
Qed.

(** C10, on the deployer of [TestDeploy_Update_Buffer_Full] with the default
    serde: a channel without buffer and no receiver. *)
Lemma Deploy_full_leaves_created_witness :
  let fd := set_jobs (make_chan 0) (Fixtures.new_fd Fixtures.release_ab) in
  let fd' := (Deploy "id1" "XX" "http://host/release.tar.gz" fd).2 in
  GetStatus "id1" fd' = Val created_status.
Proof.
  intros fd fd'.
  refine (proj1 (Deploy_full_leaves_created
                   "id1" "XX" "http://host/release.tar.gz" fd fd' _ _)).
  - vm_compute. reflexivity.
  - intros buf Hbuf. vm_compute in Hbuf. injection Hbuf as <-.
    vm_compute. reflexivity.
Defined.

(** ** Backpressure *)

(** On an accepting deployer whose open channel has room, [Deploy] returns
    the id and the job is the last of the queue. *)
Lemma Deploy_room jid releaseID releaseURL fd n buf :
  accepting fd → jobs fd = Chan n buf false → length buf < n →
  ∃ fd', Deploy jid releaseID releaseURL fd = (Returns (Val jid), fd') ∧
         accepting fd' ∧
         jobs fd' = Chan n (buf ++ [newJob jid releaseID releaseURL]) false.
Proof.
  intros (Hstop & Hdb & b & Hm) Hjobs Hlen.
  rewrite Deploy_unfold. cbv zeta. rewrite Hstop.
  erewrite saveJobStatus_ok; [|exact Hm|exact Hdb].
  simpl. rewrite Hjobs. simpl. rewrite decide_True by done.
  eexists. split; [reflexivity|]. split; [|done].
  repeat split; [done..|]. by exists b.
Qed.

(** On an accepting deployer whose open channel is full, [Deploy] returns
    the queue-full error at once and the queue is as it was. *)
Lemma Deploy_no_room jid releaseID releaseURL fd n buf :
  accepting fd → jobs fd = Chan n buf false → (n ≤ length buf)%nat →
  ∃ fd', Deploy jid releaseID releaseURL fd
         = (Returns (Fail "buffer is full, re-try later"), fd') ∧
         jobs fd' = jobs fd.
Proof.
  intros (Hstop & Hdb & b & Hm) Hjobs Hlen.
  rewrite Deploy_unfold. cbv zeta. rewrite Hstop.
  erewrite saveJobStatus_ok; [|exact Hm|exact Hdb].
  simpl. rewrite Hjobs. simpl. rewrite decide_False by lia.
  eexists. split; [reflexivity|]. done.
Qed.

(** Submissions that fit in the room left all succeed, in order. *)
Lemma deploy_all_room reqs : ∀ fd n buf,
  accepting fd → jobs fd = Chan n buf false → (length buf + length reqs ≤ n)%nat →
  ∃ fd', deploy_all reqs fd
         = (map (fun r => Returns (Val (req_id r))) reqs, fd') ∧
         accepting fd' ∧
         jobs fd' = Chan n (buf ++ map job_of_request reqs) false.
Proof.
  induction reqs as [|r reqs IH]; intros fd n buf Hacc Hjobs Hlen.
  - exists fd. simpl. by rewrite app_nil_r.
  - simpl in Hlen.
    destruct (Deploy_room (req_id r) (req_release r) (req_url r) fd n buf)
      as (fd1 & HD & Hacc1 & Hjobs1); [done|done|lia|].
    destruct (IH fd1 n _ Hacc1 Hjobs1) as (fd2 & Hall & Hacc2 & Hjobs2).
    { rewrite length_app. simpl. lia. }
    exists fd2. simpl. rewrite HD, Hall. split; [done|]. split; [done|].
    rewrite Hjobs2. by rewrite <- app_assoc.
Qed.

(** C3. The queue that [Start] makes has room for [jobSize], that is 50,
    jobs. On an accepting deployer with that queue empty and no worker
    taking jobs out, 50 submissions in a row each return their job id, and
    any further one returns the error [buffer is full, re-try later]: the
    call returns, the job is not in the queue, nothing is tried again. *)
Theorem Deploy_backpressure fd reqs :
  accepting fd → jobs fd = make_chan jobSize → length reqs = 50 →
  ∃ fd50,
    deploy_all reqs fd = (map (fun r => Returns (Val (req_id r))) reqs, fd50) ∧
    chan_buf (jobs fd50) = map job_of_request reqs ∧
    ∀ jid releaseID releaseURL, ∃ fd51,
      Deploy jid releaseID releaseURL fd50
      = (Returns (Fail "buffer is full, re-try later"), fd51) ∧
      jobs fd51 = jobs fd50.
Proof.
  intros Hacc Hjobs Hlen.
  destruct (deploy_all_room reqs fd jobSize [] Hacc Hjobs)
    as (fd50 & Hall & Hacc50 & Hjobs50).
  { simpl. rewrite Hlen. unfold jobSize. lia. }
  exists fd50. split; [exact Hall|]. split; [by rewrite Hjobs50|].
  intros jid releaseID releaseURL.
  eapply Deploy_no_room; [done|exact Hjobs50|].
  simpl. rewrite length_map, Hlen. unfold jobSize. lia.
Qed.

(** C3, for the fifty numbered requests of the fixtures and a 51st. *)
Lemma Deploy_backpressure_witness :
  ∃ fd50,
    deploy_all Fixtures.fifty (Fixtures.started_fd Fixtures.release_ab)
    = (map (fun r => Returns (Val (req_id r))) Fixtures.fifty, fd50) ∧
    (Deploy "51st" "XX" "http://host/release.tar.gz" fd50).1
    = Returns (Fail "buffer is full, re-try later").
Proof.
  destruct (Deploy_backpressure (Fixtures.started_fd Fixtures.release_ab)
                                Fixtures.fifty)
    as (fd50 & Hall & _ & Hfull).
  - repeat split; [reflexivity..|]. eexists. vm_compute. reflexivity.
  - reflexivity.
  - reflexivity.
  - exists fd50. split; [exact Hall|].
    destruct (Hfull "51st" "XX" "http://host/release.tar.gz") as (fd51 & -> & _).
    reflexivity.
Defined.

(** ** The worker's turn *)

(** [handleJob] touches the log of the deployer and nothing else of it. *)
Lemma handleJob_frame E cands j fd fs err fd' fs' :
  handleJob E cands j fd fs = (err, fd', fs') →
  db fd' = db fd ∧ config fd' = config fd ∧ jobs fd' = jobs fd ∧
  stop fd' = stop fd ∧ client fd' = client fd ∧ serde fd' = serde fd.
Proof.
  unfold handleJob. intros H.
  repeat case_match; simplify_eq; done.
Qed.

(** The worker's turn touches neither the queue nor the stop flag. *)
Lemma processJob_frame E cands j fd fs fd' fs' :
  processJob E cands j fd fs = (fd', fs') →
  config fd' = config fd ∧ jobs fd' = jobs fd ∧ stop fd' = stop fd ∧
  client fd' = client fd ∧ serde fd' = serde fd ∧
  db_closed (db fd') = db_closed (db fd) ∧
  ∀ k, k ≠ id j → items (db fd') !! k = items (db fd) !! k.
Proof.
  unfold processJob. intros H.
  destruct (handleJob E cands j fd fs) as [[e fd1] fs1] eqn:Hh.
  destruct (handleJob_frame _ _ _ _ _ _ _ _ Hh) as (Hdb & ? & ? & ? & ? & ?).
  destruct e as [err|].
  - destruct (saveJobStatus (id j) "failed" err fd1) as [e2 fd2] eqn:Hs.
    destruct (saveJobStatus_frame _ _ _ _ _ _ Hs) as (?&?&?&?&?&?&?&Hk).
    rewrite Hdb in *.
    destruct e2; injection H as <- <-; simpl; repeat split; congruence || auto.
    all: intros k Hne; rewrite Hk by done; done.
  - destruct (saveJobStatus (id j) "ok" "job done" fd1) as [e2 fd2] eqn:Hs.
    destruct (saveJobStatus_frame _ _ _ _ _ _ Hs) as (?&?&?&?&?&?&?&Hk).
    rewrite Hdb in *.
    destruct e2; injection H as <- <-; simpl; repeat split; congruence || auto.
    all: intros k Hne; rewrite Hk by done; done.
Qed.

Lemma handleJob_unmapped E cands j fd fs :
  Entries (config fd) !! releaseID j = None →
  handleJob E cands j fd fs
  = (Some (release_not_found (releaseID j)),
     log (Info ("starting job " +:+ fmt_q (id j) +:+ " (release " +:+
                fmt_q (releaseID j) +:+ ")")) fd,
     fs).
Proof. unfold handleJob. simpl. by intros ->. Qed.

(** C5. For a release key that the configuration does not map, the install
    fails with the error [releaseID "<key>" not found from the config] and
    the file tree is not touched: not by the install, not by the worker's
    turn for the job. The turn saves the status [failed] with that message
    under the job id (the serde writing it, the database being open), which
    is what [GetStatus] then reports. *)
Theorem unmapped_release_fails E cands j fd fs :
  Entries (config fd) !! releaseID j = None →
  (handleJob E cands j fd fs).1.1 = Some (release_not_found (releaseID j)) ∧
  (handleJob E cands j fd fs).2 = fs ∧
  (processJob E cands j fd fs).2 = fs ∧
  ∀ buf,
    Marshal (serde fd) (failed_status (release_not_found (releaseID j))) = Val buf →
    db_closed (db fd) = false →
    items (db (processJob E cands j fd fs).1) !! id j = Some buf ∧
    (serde_faithful (serde fd) (failed_status (release_not_found (releaseID j))) →
     GetStatus (id j) (processJob E cands j fd fs).1
     = Val (failed_status (release_not_found (releaseID j)))).
Proof.
  intros Hnone. unfold processJob.
  rewrite (handleJob_unmapped _ _ _ _ _ Hnone). simpl.
  split; [done|]. split; [done|].
  set (fd1 := log _ fd).
  split.
  - destruct (saveJobStatus _ _ _ fd1) as [[e|] fd2]; done.
  - intros buf Hm Hdb.
    pose proof (saveJobStatus_ok (id j) "failed"
                  (release_not_found (releaseID j)) fd1 buf Hm Hdb) as Hs.
    rewrite Hs. simpl. split; [by rewrite lookup_insert_eq|].
    intros Hser. by apply (GetStatus_after_save _ _ _ _ _ Hs).
Qed.

(** C5, for the job of the fixtures whose release key [YY] is not mapped. *)
Lemma unmapped_release_fails_witness :
  let fd := Fixtures.started_fd Fixtures.release_ab in
  (processJob Fixtures.E0 ["123"] Fixtures.job_unmapped fd Fixtures.fs0).2
  = Fixtures.fs0 ∧
  GetStatus "id2"
    (processJob Fixtures.E0 ["123"] Fixtures.job_unmapped fd Fixtures.fs0).1
  = Val (failed_status (release_not_found "YY")).
Proof.
  intros fd.
  destruct (unmapped_release_fails Fixtures.E0 ["123"] Fixtures.job_unmapped
              fd Fixtures.fs0) as (_ & _ & Hfs & Hdb).
  - vm_compute. reflexivity.
  - split; [exact Hfs|].
    eapply (Hdb _); [vm_compute; reflexivity|reflexivity|].
    intros buf Hbuf. vm_compute in Hbuf. injection Hbuf as <-.
    vm_compute. reflexivity.
Defined.



(** ** Stopping *)

(** With the stop flag set, the loop leaves at the first job it receives:
    that job is out of the channel, the others stay in it, nothing else
    has changed ([TestProcessJobs_Stop]). *)
Lemma processJobs_stopped E rnd fd fs n j rest cl :
  stop fd = true → jobs fd = Chan n (j :: rest) cl →
  processJobs E rnd fd fs = (set_jobs (Chan n rest cl) fd, fs, StopSeen).
Proof.
  intros Hstop Hjobs. unfold processJobs. rewrite Hjobs. simpl.
  unfold getStop. by rewrite Hstop.
Qed.

Lemma saveJobStatus_created jid fd fd' :
  saveJobStatus jid "created" "job has been created" fd = (None, fd') →
  holds_created fd' jid.
Proof.
  unfold saveJobStatus, holds_created, db_Set. intros H.
  destruct (Marshal (serde fd) _) as [buf|] eqn:Hm; [|done].
  destruct (db_closed (db fd)); [done|]. injection H as <-. simpl.
  exists buf. split; [exact Hm|]. by rewrite lookup_insert_eq.
Qed.

(** A key that holds the [created] status reads as [created]. *)
Lemma GetStatus_holds_created fd k :
  holds_created fd k → db_closed (db fd) = false →
  serde_faithful (serde fd) created_status →
  GetStatus k fd = Val created_status.
Proof.
  intros (buf & Hm & Hlook) Hcl Hser. unfold GetStatus, db_Get.
  by rewrite Hcl, Hlook, (Hser buf Hm).
Qed.

(** C8, as stated, fails between the two actions of [Stop]: [Stop] closes
    the queue, the worker receives [job1] from the closed queue, finds the
    flag not yet set and installs the release, and only then does [Stop]
    set the flag. [job1], in the queue when [Stop] was called, ends with the
    status [ok]. *)
Lemma queued_at_Stop_may_be_processed :
  ¬ queued_at_Stop_never_processed Fixtures.E0.
Proof.
  intros Hclaim.
  set (fd0 := Fixtures.fd_job1).
  set (fd1 := set_jobs (Chan jobSize [Fixtures.job1] true) fd0).
  set (fd2 := set_jobs (Chan jobSize [] true) fd1).
  set (r := processJob Fixtures.E0 ["123"] Fixtures.job1 fd2 Fixtures.fs0).
  set (s1 := mkSys fd1 Fixtures.fs0 WRecv SClosed [] false).
  set (s' := mkSys (set_stop true r.1) r.2 WRecv SDone [] false).
  assert (Hcall : Stop_called Fixtures.E0 Fixtures.sys_job1 s1).
  { split; [|done]. apply (step_stop_close _ fd0). reflexivity. }
  assert (Hsteps : steps Fixtures.E0 s1 s').
  { eapply rtc_l.
    { apply (step_recv _ fd1 _ _ _ Fixtures.job1 (Chan jobSize [] true)).
      reflexivity. }
    eapply rtc_l.
    { apply step_stop_unseen. reflexivity. }
    eapply rtc_l.
    { apply (step_process _ fd2 _ _ _ _ ["123"] r.1 r.2).
      symmetry. apply surjective_pairing. }
    eapply rtc_l; [|apply rtc_refl].
    apply step_stop_flag. }
  assert (Hreach : reachable Fixtures.E0 Fixtures.sys_job1).
  { exists Fixtures.db0, Fixtures.conf0,
           (fakeClient Fixtures.release_ab None), [], Fixtures.fs0.
    set (fda := Fixtures.started_fd Fixtures.release_ab).
    set (fdb := log (Info ("deploying release " +:+ fmt_q "XX" +:+ " from " +:+
                           fmt_q "http://host/release.tar.gz")) fda).
    set (sv := saveJobStatus "id1" "created" "job has been created" fdb).
    eapply rtc_l; [apply step_start|].
    eapply rtc_l.
    { apply (step_deploy_check _ fda _ _ _ _ "id1" "XX"
               "http://host/release.tar.gz"). reflexivity. }
    eapply rtc_l.
    { apply (step_deploy_save _ fdb _ _ _ [] [] "id1" "XX"
               "http://host/release.tar.gz" sv.2). reflexivity. }
    eapply rtc_l; [|apply rtc_refl].
    apply (step_deploy_sent _ sv.2 _ _ _ [] [] Fixtures.job1
             (Chan jobSize [Fixtures.job1] false)). reflexivity. }
  specialize (Hclaim _ _ _ Fixtures.job1 Hreach Hcall Hsteps).
  assert (Hq : Fixtures.job1 ∈ queued Fixtures.sys_job1).
  { vm_compute. apply list_elem_of_here. }
  specialize (Hclaim Hq). vm_compute in Hclaim. discriminate.
Qed.

(** ** Latest tags *)

Lemma GetLatestTag_absent key td :
  db_closed (Tags.tags td) = false → items (Tags.tags td) !! key = None →
  Tags.GetLatestTag key td = Val Tags.unknown.
Proof.
  intros Hopen Hnone. unfold Tags.GetLatestTag, db_Get.
  rewrite Hopen, Hnone. by rewrite decide_True.
Qed.

Lemma GetLatestTag_present key t td :
  db_closed (Tags.tags td) = false → items (Tags.tags td) !! key = Some t →
  Tags.GetLatestTag key td = Val t.
Proof.
  intros Hopen Hsome. unfold Tags.GetLatestTag, db_Get. by rewrite Hopen, Hsome.
Qed.

(** The table of tags stays open, and a turn that is not a successful
    tagged install of [key] leaves the entry of [key] alone. *)
Lemma processTaggedJob_tags E cands tj td fs key :
  db_closed (Tags.tags td) = false →
  db_closed (Tags.tags (Tags.processTaggedJob E cands tj td fs).1) = false ∧
  items (Tags.tags (Tags.processTaggedJob E cands tj td fs).1) !! key
  = if Tags.install_ok E cands (Tags.the_job tj) (Tags.deployer td) fs
       && negb (String.eqb (Tags.tag tj) EmptyString)
       && bool_decide (releaseID (Tags.the_job tj) = key)
    then Some (Tags.tag tj)
    else items (Tags.tags td) !! key.
Proof.
  intros Hopen. unfold Tags.processTaggedJob.
  destruct (processJob _ _ _ _ _) as [fd' fs'].
  destruct (Tags.install_ok _ _ _ _ _ && _); simpl; [|done].
  unfold db_Set. rewrite Hopen. simpl. split; [done|].
  case_bool_decide as Hk.
  - subst key. by rewrite lookup_insert_eq.
  - by rewrite lookup_insert_ne.
Qed.

Lemma processTaggedJobs_unknown E rnd tjs : ∀ n td fs key,
  db_closed (Tags.tags td) = false →
  items (Tags.tags td) !! key = None →
  (∀ t, (key, t) ∉ Tags.tagged_installs E rnd n tjs td fs) →
  Tags.GetLatestTag key (Tags.processTaggedJobs E rnd n tjs td fs).1
  = Val Tags.unknown.
Proof.
  induction tjs as [|tj tjs IH]; intros n td fs key Hopen Hnone Hno; simpl.
  - by apply GetLatestTag_absent.
  - simpl in Hno.
    destruct (processTaggedJob_tags E (rnd n) tj td fs key Hopen) as [Hopen' Hkey].
    destruct (Tags.processTaggedJob E (rnd n) tj td fs) as [td' fs'] eqn:Hp.
    simpl in *. apply IH; [done| |].
    + rewrite Hkey.
      destruct (Tags.install_ok _ _ _ _ _ && _) eqn:Hok; simpl; [|done].
      case_bool_decide as Hk; [|done]. subst key.
      exfalso. apply (Hno (Tags.tag tj)). apply list_elem_of_here.
    + intros t Hin. apply (Hno t).
      destruct (Tags.install_ok _ _ _ _ _ && _); [|done].
      by apply list_elem_of_further.
Qed.

(** C7. From a table of tags without an entry for a release key, after any
    run of the worker in which no install of that key both succeeded and
    carried a non-empty tag, [GetLatestTag] returns [unknown] and no error;
    and after a turn in which the install of a job succeeded and the job
    carried a non-empty tag [t], [GetLatestTag] of the job's release key
    returns [t]. *)
Theorem GetLatestTag_unknown_then_tag E rnd n tjs tj td fs key :
  db_closed (Tags.tags td) = false →
  items (Tags.tags td) !! key = None →
  (∀ t, (key, t) ∉ Tags.tagged_installs E rnd n tjs td fs) →
  Tags.GetLatestTag key td = Val "unknown" ∧
  Tags.GetLatestTag key (Tags.processTaggedJobs E rnd n tjs td fs).1
  = Val "unknown" ∧
  (Tags.install_ok E (rnd n) (Tags.the_job tj) (Tags.deployer td) fs = true →
   Tags.tag tj ≠ EmptyString →
   Tags.GetLatestTag (releaseID (Tags.the_job tj))
                     (Tags.processTaggedJob E (rnd n) tj td fs).1
   = Val (Tags.tag tj)).
Proof.
  intros Hopen Hnone Hno. split; [by apply GetLatestTag_absent|].
  split; [by apply processTaggedJobs_unknown|].
  intros Hok Htag.
  destruct (processTaggedJob_tags E (rnd n) tj td fs
              (releaseID (Tags.the_job tj)) Hopen) as [Hopen' Hkey].
  apply GetLatestTag_present; [done|]. rewrite Hkey, Hok.
  rewrite bool_decide_eq_true_2 by done.
  destruct (String.eqb_spec (Tags.tag tj) EmptyString); done.
Qed.

(** C7, on the fixtures: [unknown] for the key [XX] before any install and
    after the install of an untagged job, [v1.2.3] after the install of the
    job tagged so. *)
Lemma GetLatestTag_unknown_then_tag_witness :
  Tags.GetLatestTag "XX" Fixtures.td0 = Val "unknown" ∧
  Tags.GetLatestTag "XX"
    (Tags.processTaggedJobs Fixtures.E0 Fixtures.rnd0 0
       [Tags.mkTaggedJob Fixtures.job1 EmptyString] Fixtures.td0 Fixtures.fs0).1
  = Val "unknown" ∧
  Tags.GetLatestTag "XX"
    (Tags.processTaggedJob Fixtures.E0 ["123"] Fixtures.tagged1
       Fixtures.td0 Fixtures.fs0).1
  = Val "v1.2.3".
Proof.
  destruct (GetLatestTag_unknown_then_tag Fixtures.E0 Fixtures.rnd0 0
              [Tags.mkTaggedJob Fixtures.job1 EmptyString] Fixtures.tagged1
              Fixtures.td0 Fixtures.fs0 "XX") as (H1 & H2 & H3).
  - reflexivity.
  - reflexivity.
  - intros t Hin. vm_compute in Hin. by apply elem_of_nil in Hin.
  - split; [exact H1|]. split; [exact H2|].
    apply H3; [vm_compute; reflexivity|discriminate].
Defined.

(** ** The file tree *)

Lemma stat_nonroot (fs : FS) (p : path) : p ≠ [] → stat fs p = fs !! p.
Proof. by destruct p. Qed.

Lemma os_RemoveAll_lookup (p k : path) (fs : FS) :
  os_RemoveAll p fs !! k = if decide (p `prefix_of` k) then None else fs !! k.
Proof.
  unfold os_RemoveAll. rewrite map_lookup_filter.
  destruct (fs !! k) as [n|] eqn:Hk; simpl.
  - case_decide as Hp.
    + rewrite option_guard_False; [done|]. simpl. auto.
    + by rewrite option_guard_True.
  - by case_decide.
Qed.

(** What [moved] holds: below [new], what the tree held below [old]. *)
Lemma moved_lookup (old new k : path) (fs : FS) :
  moved old new fs !! k
  = if decide (new `prefix_of` k) then fs !! (old ++ drop (length new) k)
    else None.
Proof.
  unfold moved. revert k.
  apply (map_fold_weak_ind (fun r (m : FS) => ∀ k,
           r !! k = if decide (new `prefix_of` k)
                    then m !! (old ++ drop (length new) k) else None)).
  - intros k. rewrite !lookup_empty. by case_decide.
  - intros i x m r Hi IH k.
    destruct (decide (old `prefix_of` i)) as [[t ->]|Hold].
    + rewrite drop_app_length.
      destruct (decide (k = new ++ t)) as [->|Hk].
      * rewrite lookup_insert_eq. rewrite decide_True by (by apply prefix_app_r).
        by rewrite drop_app_length, lookup_insert_eq.
      * rewrite lookup_insert_ne by done. rewrite IH.
        case_decide as Hnew; [|done].
        rewrite lookup_insert_ne; [done|].
        intros Heq. apply app_inv_head in Heq. destruct Hnew as [u ->].
        rewrite drop_app_length in Heq. by subst.
    + rewrite IH. case_decide; [|done].
      rewrite lookup_insert_ne; [done|].
      intros ->. apply Hold. by apply prefix_app_r.
Qed.

(** After a rename, the new name holds what the old name held. *)
Lemma os_Rename_lookup (old new q : path) (fs fs' : FS) :
  os_Rename old new fs = inr fs' →
  fs' !! (new ++ q) = fs !! (old ++ q).
Proof.
  assert (Hgo : (moved old new fs ∪ os_RemoveAll old (os_RemoveAll new fs))
                !! (new ++ q) = fs !! (old ++ q)).
  { rewrite lookup_union, moved_lookup.
    rewrite decide_True by (by apply prefix_app_r).
    rewrite drop_app_length, !os_RemoveAll_lookup.
    rewrite (decide_True (P := new `prefix_of` new ++ q))
      by (by apply prefix_app_r).
    destruct (decide _); destruct (fs !! (old ++ q)); reflexivity. }
  unfold os_Rename. intros H.
  repeat case_match; simplify_eq; try done.
  match goal with e : _ :: _ = _ :: _ |- _ => by rewrite e end.
Qed.

(** A rename that succeeds found the old name, and the new name is not
    strictly below it. *)
Lemma os_Rename_inv (old new : path) (fs fs' : FS) :
  os_Rename old new fs = inr fs' →
  is_Some (fs !! old) ∧ (old = new ∨ ¬ old `prefix_of` new).
Proof.
  unfold os_Rename. intros H.
  repeat case_match; simplify_eq; (split; [eauto|]); auto.
Qed.

(** A temporary folder that was made is new, lies in [os.TempDir()], and is
    all that was added to the tree. *)
Lemma ioutil_TempDir_inv (E : Env) (pre : string) (cands : list string)
    (fs : FS) (tmp : path) (fs1 : FS) :
  ioutil_TempDir E pre cands fs = Val (tmp, fs1) →
  (∃ c, tmp = TempRoot E ++ [pre +:+ c]) ∧
  fs !! tmp = None ∧
  fs1 = <[tmp := NDir (apply_umask E 448)]> fs.
Proof.
  induction cands as [|c cands IH]; simpl; [done|].
  unfold os_Mkdir.
  assert (Hne : TempRoot E ++ [pre +:+ c] ≠ []) by (by destruct (TempRoot E)).
  rewrite (stat_nonroot _ _ Hne).
  destruct (fs !! (TempRoot E ++ [pre +:+ c])) eqn:Hl; [exact IH|].
  destruct (stat fs (parent _)) as [[]|]; try done.
  intros [= <- <-]. eauto.
Qed.

(** In a well-formed tree nothing lies below a name that does not exist. *)
Lemma wf_fs_nothing_below (fs : FS) (p q : path) :
  wf_fs fs → p ≠ [] → fs !! p = None → p `prefix_of` q → fs !! q = None.
Proof.
  intros Hwf Hp Hnone [k ->].
  induction k as [|c k IH] using rev_ind.
  - by rewrite app_nil_r.
  - destruct (fs !! (p ++ k ++ [c])) as [n|] eqn:Hl; [|done].
    destruct (Hwf _ _ Hl) as [_ Hdir]. unfold parent in Hdir.
    rewrite app_assoc, removelast_last in Hdir.
    rewrite stat_nonroot in Hdir by (by destruct p).
    by rewrite IH in Hdir.
Qed.

(** Removing a folder that was just made, in a well-formed tree, gives the
    tree back. *)
Lemma os_RemoveAll_fresh (fs : FS) (p : path) (n : node) :
  wf_fs fs → p ≠ [] → fs !! p = None →
  os_RemoveAll p (<[p := n]> fs) = fs.
Proof.
  intros Hwf Hp Hnone. apply map_eq. intros k.
  rewrite os_RemoveAll_lookup. case_decide as Hpre.
  - symmetry. by apply (wf_fs_nothing_below fs p k).
  - rewrite lookup_insert_ne; [done|]. by intros ->.
Qed.







(** Extracting a regular file touches its own name only. *)
Lemma untar_entry_reg_other (E : Env) (dest : path) (e : TarEntry)
    (fs fs' : FS) (err : option string) (q : path) :
  Typeflag e = TypeReg →
  untar_entry E dest e fs = (err, fs') →
  q ≠ filepath_Join dest (Name e) →
  fs' !! q = fs !! q.
Proof.
  unfold untar_entry, os_OpenFile_create_rdwr. intros Hreg H Hq.
  rewrite decide_False in H by (rewrite Hreg; done).
  rewrite decide_True in H by done.
  repeat case_match; simplify_eq; try done;
    by rewrite ?lookup_insert_ne by done.
Qed.





(** ** The install *)

(** What a successful [saveTar] did. *)
Lemma saveTar_ok_inv (E : Env) (tr : TarStream) (dest : path) (fs fs2 : FS)
    (r : string) :
  saveTar E (Gzip tr) dest fs = (Val r, fs2) →
  ∃ root rest fsm,
    tar_entries tr = root :: rest ∧ Typeflag root = TypeDir ∧ r = Name root ∧
    os_MkdirAll E (filepath_Join dest (Name root)) perm_0755 fs = inr fsm ∧
    untar E dest rest (tar_end tr) fsm = (None, fs2).
Proof.
  unfold saveTar. intros H.
  destruct (tar_entries tr) as [|root rest]; [discriminate H|].
  destruct (decide (Typeflag root ≠ TypeDir)) as [|Hdir]; [discriminate H|].
  apply dec_stable in Hdir.
  destruct (os_MkdirAll _ _ _ _) as [[]|fsm] eqn:Hmk; [discriminate H|].
  destruct (untar _ _ _ _ _) as [[err|] fs3] eqn:Hun; [discriminate H|].
  injection H as <- <-. by exists root, rest, fsm.
Qed.

(** What a successful [handleJob] did. *)
Lemma handleJob_ok_inv (E : Env) (cands : list string) (j : job)
    (fd fd' : FileDeployer) (fs fs' : FS) :
  handleJob E cands j fd fs = (None, fd', fs') →
  ∃ target res tmp fs1 root fs2 fsR,
    Entries (config fd) !! releaseID j = Some target ∧
    Get (client fd) (releaseURL j) = Val res ∧
    ioutil_TempDir E "hodor" cands fs = Val (tmp, fs1) ∧
    saveTar E res tmp fs1 = (Val root, fs2) ∧
    os_Rename (filepath_Join tmp root) target (os_RemoveAll target fs2)
    = inr fsR ∧
    fs' = os_RemoveAll tmp fsR.
Proof.
  unfold handleJob. intros H.
  repeat case_match; simplify_eq. eauto 20.
Qed.



(** C4, as the code has it. For an archive whose first entry is not a
    folder, the release key being mapped and the archive fetched, the install
    fails and leaves the file tree, target folder included, exactly as it
    was (the tree being well formed): the temporary folder it made is
    removed. Once the temporary folder is made, [saveTar] fails with the
    error [tar must be a folder] and the install with [failed to save tar
    file: tar must be a folder]. *)
Theorem not_a_folder_fails (E : Env) (cands : list string) (j : job)
    (fd : FileDeployer) (fs : FS) (target : path) (tr : TarStream)
    (h : TarEntry) (rest : list TarEntry) :
  wf_fs fs →
  Entries (config fd) !! releaseID j = Some target →
  Get (client fd) (releaseURL j) = Val (Gzip tr) →
  tar_entries tr = h :: rest →
  Typeflag h ≠ TypeDir →
  is_Some (handleJob E cands j fd fs).1.1 ∧
  (handleJob E cands j fd fs).2 = fs ∧
  ∀ tmp fs1, ioutil_TempDir E "hodor" cands fs = Val (tmp, fs1) →
    saveTar E (Gzip tr) tmp fs1 = (Fail "tar must be a folder", fs1) ∧
    (handleJob E cands j fd fs).1.1
    = Some "failed to save tar file: tar must be a folder".
Proof.
  intros Hwf Hent Hget Htar Hh. unfold handleJob.
  cbn [config client log]. rewrite Hent, Hget.
  assert (Hsave : ∀ tmp fs1,
            saveTar E (Gzip tr) tmp fs1 = (Fail "tar must be a folder", fs1)).
  { intros tmp fs1. unfold saveTar. rewrite Htar. by rewrite decide_True. }
  destruct (ioutil_TempDir E "hodor" cands fs) as [[tmp fs1]|err] eqn:Htmp.
  - rewrite Hsave. cbn [fst snd].
    destruct (ioutil_TempDir_inv _ _ _ _ _ _ Htmp) as ([c Hc] & Hfresh & ->).
    assert (Htmpne : tmp ≠ []) by (rewrite Hc; by destruct (TempRoot E)).
    split; [eauto|]. split; [by apply os_RemoveAll_fresh|].
    intros tmp' fs1' [= <- <-]. by rewrite Hsave.
  - cbn [fst snd]. split; [eauto|]. split; [done|]. intros ? ? [=].
Qed.

(** C4, for the archive of the fixtures made of one file. *)
Lemma not_a_folder_fails_witness :
  let r := handleJob Fixtures.E0 ["123"] Fixtures.job1
             (Fixtures.started_fd Fixtures.release_file) Fixtures.fs0 in
  r.1.1 = Some "failed to save tar file: tar must be a folder" ∧
  r.2 = Fixtures.fs0.
Proof.
  intros r.
  destruct (not_a_folder_fails Fixtures.E0 ["123"] Fixtures.job1
              (Fixtures.started_fd Fixtures.release_file) Fixtures.fs0
              Fixtures.site
              (mkTarStream [Fixtures.file_entry "release.txt" "ZZ"] None)
              (Fixtures.file_entry "release.txt" "ZZ") [])
    as (_ & Hfs & Hmsg).
  - apply (bool_decide_unpack _). vm_compute. exact I.
  - reflexivity.
  - reflexivity.
  - reflexivity.
  - discriminate.
  - split; [|exact Hfs].
    apply (Hmsg ["tmp"; "hodor123"] (<[["tmp"; "hodor123"] := NDir 448]> Fixtures.fs0)).
    vm_compute. reflexivity.
Defined.

(** C4, as stated, fails on the text of the error: for the archive of the
    fixtures made of one file, the error of [saveTar] is [tar must be a
    folder], and neither it nor the error of the install is, or contains,
    [archive must be a folder]. *)
Lemma not_a_folder_error_text :
  let tmp := ["tmp"; "hodor123"] in
  let r := handleJob Fixtures.E0 ["123"] Fixtures.job1
             (Fixtures.started_fd Fixtures.release_file) Fixtures.fs0 in
  (saveTar Fixtures.E0 Fixtures.release_file tmp Fixtures.fs0).1
  = Fail "tar must be a folder" ∧
  (saveTar Fixtures.E0 Fixtures.release_file tmp Fixtures.fs0).1
  ≠ Fail "archive must be a folder" ∧
  r.1.1 ≠ Some "archive must be a folder" ∧
  ∀ err, r.1.1 = Some err → contains "archive must be a folder" err = false.
Proof.
  intros tmp r. split; [reflexivity|]. split; [discriminate|].
  split; [discriminate|].
  intros err Herr. vm_compute in Herr. injection Herr as <-. reflexivity.
Qed.

(** ** Writing over a file *)

(** A regular entry extracted to a name that holds a file is written over
    it from the start, and the bytes of the old file beyond the length of
    the entry stay; the mode of the file stays too. *)
Lemma untar_entry_over_file (E : Env) (dest : path) (e : TarEntry) (fs : FS)
    (old : string) (m : Z) :
  Typeflag e = TypeReg → ReadErr e = None →
  filepath_Join dest (Name e) ≠ [] →
  fs !! filepath_Join dest (Name e) = Some (NFile old m) →
  untar_entry E dest e fs
  = (None, <[filepath_Join dest (Name e)
             := NFile (write_at_0 (Data e) old) m]> fs).
Proof.
  intros Hreg Herr Hne Hold. unfold untar_entry, os_OpenFile_create_rdwr.
  rewrite decide_False by (rewrite Hreg; done).
  rewrite decide_True by done.
  rewrite stat_nonroot by done. by rewrite Hold, Herr.
Qed.

(** C9, at an archive that has the name [release/a] twice, first with the
    bytes [AAAA], then with [BB]: the second entry is written over the file
    of the first, which is opened without truncation, and the file installed
    holds [BBAA], not the bytes [BB] of the entry. *)
Theorem untar_second_entry_keeps_tail :
  let tmp := ["tmp"; "hodor123"] in
  let scratch : FS := <[tmp ++ ["release"; "a"] := NFile "AAAA" 493]>
                      (<[tmp ++ ["release"] := NDir 493]>
                       (<[tmp := NDir 448]> Fixtures.fs0)) in
  (untar_entry Fixtures.E0 tmp (Fixtures.file_entry "release/a" "BB") scratch).2
    !! (tmp ++ ["release"; "a"]) = Some (NFile "BBAA" 493) ∧
  (handleJob Fixtures.E0 ["123"] Fixtures.job1
     (Fixtures.started_fd Fixtures.release_twice) Fixtures.fs0).1.1 = None ∧
  (handleJob Fixtures.E0 ["123"] Fixtures.job1
     (Fixtures.started_fd Fixtures.release_twice) Fixtures.fs0).2
    !! (Fixtures.site ++ ["a"]) = Some (NFile "BBAA" 493).
Proof.
  intros tmp scratch. split; [|split].
  - rewrite (untar_entry_over_file Fixtures.E0 tmp
               (Fixtures.file_entry "release/a" "BB") scratch "AAAA" 493);
      [| reflexivity | reflexivity | discriminate | reflexivity ].
    cbn [snd]. apply lookup_insert_eq.
  - vm_compute. reflexivity.
  - vm_compute. reflexivity.
Qed.

(** ** The calls as runs of the system *)

(** A call of [Deploy] that returns is a run of the system: the check of
    the stop flag, the save, the send. *)
Lemma Deploy_steps (E : Env) (s : Sys) (jid releaseID releaseURL : string)
    (r : ret string) (fd' : FileDeployer) :
  panicked s = false →
  Deploy jid releaseID releaseURL (sys_fd s) = (Returns r, fd') →
  steps E s (with_fd fd' s).
Proof.
  destruct s as [fd fs w st cs pn]. unfold with_fd. simpl. intros -> H.
  rewrite Deploy_unfold in H. cbv zeta in H.
  destruct (stop fd) eqn:Hstop.
  { injection H as <- <-. apply rtc_once. by apply step_deploy_stopped. }
  eapply rtc_l.
  { by apply (step_deploy_check _ _ _ _ _ _ jid releaseID releaseURL). }
  destruct (saveJobStatus _ _ _ _) as [[err|] fd1] eqn:Hsave.
  { injection H as <- <-. apply rtc_once.
    by apply (step_deploy_save_fail _ _ _ _ _ [] cs jid releaseID releaseURL err). }
  eapply rtc_l.
  { by apply (step_deploy_save _ _ _ _ _ [] cs jid releaseID releaseURL fd1). }
  destruct (try_send _ (jobs fd1)) as [c| |] eqn:Hsend; [| |discriminate H];
    injection H as <- <-; apply rtc_once.
  - by apply (step_deploy_sent _ _ _ _ _ [] cs).
  - by apply (step_deploy_full _ _ _ _ _ [] cs).
Qed.

(** A call of [Stop] that returns is a run of the system: the close, then
    the flag. *)
Lemma Stop_steps (E : Env) (fd fd' : FileDeployer) (fs : FS)
    (w : worker_state) (cs : list caller_state) :
  Stop fd = Returns fd' →
  steps E (mkSys fd fs w SIdle cs false) (mkSys fd' fs w SDone cs false).
Proof.
  unfold Stop. intros H.
  destruct (close_chan (jobs fd)) as [c|] eqn:Hclose; [|discriminate H].
  injection H as <-.
  eapply rtc_l; [by apply step_stop_close|].
  apply rtc_once. apply step_stop_flag.
Qed.

Lemma saveJobStatus_set_jobs (c : chan) (jobID status message : string)
    (fd : FileDeployer) :
  saveJobStatus jobID status message (set_jobs c fd)
  = ((saveJobStatus jobID status message fd).1,
     set_jobs c (saveJobStatus jobID status message fd).2).
Proof.
  unfold saveJobStatus, db_Set. cbn [serde db set_jobs].
  destruct (Marshal (serde fd) _); [|reflexivity].
  destruct (db_closed (db fd)); reflexivity.
Qed.

Lemma handleJob_set_jobs (E : Env) (cands : list string) (j : job)
    (c : chan) (fd : FileDeployer) (fs : FS) :
  handleJob E cands j (set_jobs c fd) fs
  = ((handleJob E cands j fd fs).1.1,
     set_jobs c (handleJob E cands j fd fs).1.2,
     (handleJob E cands j fd fs).2).
Proof.
  unfold handleJob. cbn [config client log set_jobs].
  destruct (Entries (config fd) !! releaseID j); [|reflexivity].
  destruct (Get (client fd) (releaseURL j)); [|reflexivity].
  destruct (ioutil_TempDir E "hodor" cands fs) as [[tmp fs1]|]; [|reflexivity].
  destruct (saveTar E a tmp fs1) as [[root|err] fs2]; [|reflexivity].
  destruct (os_Rename _ _ _); reflexivity.
Qed.

(** The worker's turn does not look at the channel. *)
Lemma processJob_set_jobs (E : Env) (cands : list string) (j : job)
    (c : chan) (fd : FileDeployer) (fs : FS) :
  processJob E cands j (set_jobs c fd) fs
  = (set_jobs c (processJob E cands j fd fs).1, (processJob E cands j fd fs).2).
Proof.
  unfold processJob. rewrite handleJob_set_jobs.
  destruct (handleJob E cands j fd fs) as [[[err|] fd1] fs1]; cbn [fst snd];
    rewrite saveJobStatus_set_jobs;
    destruct (saveJobStatus _ _ _ fd1) as [[e2|] fd2]; reflexivity.
Qed.

(** ** What the deployer keeps while it runs *)

Lemma saveJobStatus_keeps (jobID status message : string)
    (fd fd' : FileDeployer) (err : option string) (k : string) :
  saveJobStatus jobID status message fd = (err, fd') →
  is_Some (items (db fd) !! k) → is_Some (items (db fd') !! k).
Proof.
  unfold saveJobStatus, db_Set. intros H Hk.
  destruct (Marshal (serde fd) _); [|by simplify_eq].
  destruct (db_closed (db fd)); simplify_eq; [done|]. simpl.
  destruct (decide (k = jobID)) as [->|Hne].
  - rewrite lookup_insert_eq. eauto.
  - by rewrite lookup_insert_ne.
Qed.

Lemma processJob_keeps (E : Env) (cands : list string) (j : job)
    (fd fd' : FileDeployer) (fs fs' : FS) (k : string) :
  processJob E cands j fd fs = (fd', fs') →
  is_Some (items (db fd) !! k) → is_Some (items (db fd') !! k).
Proof.
  unfold processJob. intros H Hk.
  destruct (handleJob E cands j fd fs) as [[e fd1] fs1] eqn:Hh.
  destruct (handleJob_frame _ _ _ _ _ _ _ _ Hh) as (Hdb & _).
  rewrite <- Hdb in Hk.
  destruct e as [err|].
  - destruct (saveJobStatus (id j) "failed" err fd1) as [e2 fd2] eqn:Hs.
    pose proof (saveJobStatus_keeps _ _ _ _ _ _ k Hs Hk).
    destruct e2; by simplify_eq.
  - destruct (saveJobStatus (id j) "ok" "job done" fd1) as [e2 fd2] eqn:Hs.
    pose proof (saveJobStatus_keeps _ _ _ _ _ _ k Hs Hk).
    destruct e2; by simplify_eq.
Qed.

(** No step of the system removes a status from the database. *)
Lemma step_keeps_status (E : Env) (s s' : Sys) (k : string) :
  step E s s' →
  is_Some (items (db (sys_fd s)) !! k) → is_Some (items (db (sys_fd s')) !! k).
Proof.
  intros Hstep Hk. inversion Hstep; subst; simpl in *; try done.
  - by apply (processJob_keeps _ _ _ _ _ _ _ k H).
  - by apply (saveJobStatus_keeps _ _ _ _ _ _ k H).
  - by apply (saveJobStatus_keeps _ _ _ _ _ _ k H).
Qed.

Lemma saved_jobs_app (cs1 cs2 : list caller_state) :
  saved_jobs (cs1 ++ cs2) = saved_jobs cs1 ++ saved_jobs cs2.
Proof. apply omap_app. Qed.

Lemma recv_buf (c c' : chan) (j : job) :
  recv c = Received j c' → chan_buf c = j :: chan_buf c'.
Proof. destruct c as [|n [|j0 buf] [|]]; simpl; intros H; by simplify_eq. Qed.

Lemma close_chan_buf (c c' : chan) :
  close_chan c = Returns c' → chan_buf c' = chan_buf c.
Proof. destruct c as [|n buf [|]]; simpl; intros H; by simplify_eq. Qed.

Lemma try_send_buf (c c' : chan) (j : job) :
  try_send j c = Sent c' → chan_buf c' = chan_buf c ++ [j].
Proof.
  destruct c as [|n buf [|]]; simpl; intros H; try done.
  case_decide; by simplify_eq.
Qed.

(** One step: the jobs on their way afterwards were on their way before, or
    are the job a caller has just saved the status of. *)
Lemma step_in_flight (E : Env) (s s' : Sys) (j : job) :
  step E s s' → j ∈ in_flight s' →
  j ∈ in_flight s ∨ is_Some (items (db (sys_fd s')) !! id j).
Proof.
  intros Hstep Hj. unfold in_flight in *.
  inversion Hstep; subst; simpl in *;
    rewrite ?saved_jobs_app in *; simpl in *; auto.
  - (* Start *) left. apply elem_of_app. by right.
  - (* receive *) left. by rewrite (recv_buf _ _ _ H).
  - (* the flag is seen *) left. by apply list_elem_of_further.
  - (* a turn *)
    destruct (processJob_frame _ _ _ _ _ _ _ H) as (_ & Hjobs & _).
    rewrite Hjobs in Hj. left. by apply list_elem_of_further.
  - (* close *) left. by rewrite (close_chan_buf _ _ H) in Hj.
  - (* the save fails *)
    rewrite (saveJobStatus_fail _ _ _ _ _ _ H) in Hj. by left.
  - (* the save *)
    destruct (saveJobStatus_frame _ _ _ _ _ _ H) as (_ & Hjobs & _).
    rewrite Hjobs in Hj.
    match type of Hj with
    | context [newJob ?a ?b ?c] =>
        destruct (decide (j = newJob a b c)) as [->|Hne]
    end.
    + right. destruct (saveJobStatus_created _ _ _ H) as (buf & _ & Hl).
      simpl. eauto.
    + left. rewrite !elem_of_app, elem_of_cons in Hj.
      rewrite !elem_of_app. tauto.
  - (* the send *)
    left. rewrite (try_send_buf _ _ _ H) in Hj.
    rewrite !elem_of_app, list_elem_of_singleton in Hj.
    rewrite !elem_of_app, elem_of_cons. tauto.
  - (* the queue is full *)
    left. rewrite !elem_of_app in Hj.
    rewrite !elem_of_app, elem_of_cons. tauto.
Qed.

(** X1. In every state the system can be in, each job on its way (saved by
    a caller and about to be sent, in the queue, or in the worker's hands)
    has a status in the database: [GetStatus] on its id never answers that
    the key is not found. *)
Theorem in_flight_has_status (E : Env) (s : Sys) (j : job) :
  reachable E s → j ∈ in_flight s →
  is_Some (items (db (sys_fd s)) !! id j) ∧
  GetStatus (id j) (sys_fd s)
  ≠ Fail ("key " +:+ fmt_q (id j) +:+ " not found").
Proof.
  intros (d & conf & cl & lg & fs & Hsteps) Hj.
  assert (Hsome : is_Some (items (db (sys_fd s)) !! id j)).
  { revert j Hj.
    apply (rtc_ind_r (R := step E)
                     (fun s => ∀ j, j ∈ in_flight s →
                                is_Some (items (db (sys_fd s)) !! id j))
             (initial_sys d conf cl lg fs)); [| |exact Hsteps].
    - intros j Hj. by apply elem_of_nil in Hj.
    - intros s1 s2 _ Hstep IH j Hj.
      destruct (step_in_flight _ _ _ _ Hstep Hj) as [Hold|]; [|done].
      apply (step_keeps_status _ _ _ _ Hstep). by apply IH. }
  split; [done|]. destruct Hsome as [v Hv].
  unfold GetStatus, db_Get. destruct (db_closed (db (sys_fd s))).
  - rewrite decide_False by discriminate. discriminate.
  - rewrite Hv. destruct (Unmarshal _ v); discriminate.
Qed.

(** X1, for [job1] of the fixtures in the queue of the started deployer. *)
Lemma in_flight_has_status_witness :
  GetStatus "id1" Fixtures.fd_job1 ≠ Fail ("key " +:+ fmt_q "id1" +:+ " not found").
Proof.
  refine (proj2 (in_flight_has_status Fixtures.E0 Fixtures.sys_job1
                   Fixtures.job1 _ _)).
  - exists Fixtures.db0, Fixtures.conf0,
           (fakeClient Fixtures.release_ab None), [], Fixtures.fs0.
    set (fda := Fixtures.started_fd Fixtures.release_ab).
    set (fdb := log (Info ("deploying release " +:+ fmt_q "XX" +:+ " from " +:+
                           fmt_q "http://host/release.tar.gz")) fda).
    set (sv := saveJobStatus "id1" "created" "job has been created" fdb).
    eapply rtc_l; [apply step_start|].
    eapply rtc_l.
    { apply (step_deploy_check _ fda _ _ _ _ "id1" "XX"
               "http://host/release.tar.gz"). reflexivity. }
    eapply rtc_l.
    { apply (step_deploy_save _ fdb _ _ _ [] [] "id1" "XX"
               "http://host/release.tar.gz" sv.2). reflexivity. }
    eapply rtc_l; [|apply rtc_refl].
    apply (step_deploy_sent _ sv.2 _ _ _ [] [] Fixtures.job1
             (Chan jobSize [Fixtures.job1] false)). reflexivity.
  - vm_compute. apply list_elem_of_here.
Defined.

Lemma step_within_capacity (E : Env) (s s' : Sys) :
  step E s s' →
  chan_within_capacity (jobs (sys_fd s)) →
  chan_within_capacity (jobs (sys_fd s')).
Proof.
  intros Hstep Hc. inversion Hstep; subst; simpl in *; try done.
  - (* Start *) split; [done|]. simpl. lia.
  - (* receive *)
    destruct (jobs fd) as [|n [|j0 buf] [|]]; simpl in *; simplify_eq;
      simpl; destruct Hc; split; auto with lia.
  - (* a turn *)
    destruct (processJob_frame _ _ _ _ _ _ _ H) as (_ & Hjobs & _).
    by rewrite Hjobs.
  - (* close *)
    destruct (jobs fd) as [|n buf [|]]; simpl in *; by simplify_eq.
  - (* the save fails *)
    by rewrite (saveJobStatus_fail _ _ _ _ _ _ H).
  - (* the save *)
    destruct (saveJobStatus_frame _ _ _ _ _ _ H) as (_ & Hjobs & _).
    by rewrite Hjobs.
  - (* the send *)
    destruct (jobs fd) as [|n buf [|]]; simpl in *; try done.
    case_decide; simplify_eq. destruct Hc as [-> _]. split; [done|].
    rewrite length_app. simpl. lia.
Qed.

(** X2. In every state the system can be in, the queue, once [Start] has
    made it, has room for [jobSize] = 50 jobs and holds at most 50. *)
Theorem queue_within_capacity (E : Env) (s : Sys) :
  reachable E s →
  chan_within_capacity (jobs (sys_fd s)) ∧
  (chan_len (jobs (sys_fd s)) ≤ 50)%nat.
Proof.
  intros (d & conf & cl & lg & fs & Hsteps).
  assert (Hc : chan_within_capacity (jobs (sys_fd s))).
  { apply (rtc_ind_r (R := step E)
             (fun s => chan_within_capacity (jobs (sys_fd s)))
             (initial_sys d conf cl lg fs)); [done| |exact Hsteps].
    intros s1 s2 _ Hstep IH. by apply (step_within_capacity _ _ _ Hstep). }
  split; [done|]. destruct (jobs (sys_fd s)) as [|n buf c]; simpl; [lia|].
  by destruct Hc.
Qed.

(** X2, for the system of the fixtures with [job1] in the queue. *)
Lemma queue_within_capacity_witness :
  (chan_len (jobs Fixtures.fd_job1) ≤ 50)%nat.
Proof.
  refine (proj2 (queue_within_capacity Fixtures.E0 Fixtures.sys_job1 _)).
  exists Fixtures.db0, Fixtures.conf0,
         (fakeClient Fixtures.release_ab None), [], Fixtures.fs0.
  set (fda := Fixtures.started_fd Fixtures.release_ab).
  set (fdb := log (Info ("deploying release " +:+ fmt_q "XX" +:+ " from " +:+
                         fmt_q "http://host/release.tar.gz")) fda).
  set (sv := saveJobStatus "id1" "created" "job has been created" fdb).
  eapply rtc_l; [apply step_start|].
  eapply rtc_l.
  { apply (step_deploy_check _ fda _ _ _ _ "id1" "XX"
             "http://host/release.tar.gz"). reflexivity. }
  eapply rtc_l.
  { apply (step_deploy_save _ fdb _ _ _ [] [] "id1" "XX"
             "http://host/release.tar.gz" sv.2). reflexivity. }
  eapply rtc_l; [|apply rtc_refl].
  apply (step_deploy_sent _ sv.2 _ _ _ [] [] Fixtures.job1
           (Chan jobSize [Fixtures.job1] false)). reflexivity.
Defined.

(** ** Submission, failing *)

(** X3. A call of [Deploy] that returns an error has put no job in the
    queue; and unless the error is the queue-full one, it has saved nothing
    in the database either: it found the deployer stopped, or could not save
    the status. *)
Theorem Deploy_error_leaves_no_job (jid releaseID releaseURL : string)
    (fd fd' : FileDeployer) (err : string) :
  Deploy jid releaseID releaseURL fd = (Returns (Fail err), fd') →
  jobs fd' = jobs fd ∧
  (err ≠ "buffer is full, re-try later" →
   db fd' = db fd ∧
   (err = "deployer is stopped" ∧ stop fd = true ∨
    ∃ e, err = "failed to set job status: " +:+ e ∧ stop fd = false)).
Proof.
  rewrite Deploy_unfold. cbv zeta. intros H.
  destruct (stop fd) eqn:Hstop.
  { injection H as <- <-. split; [done|]. intros _. split; [done|]. by left. }
  destruct (saveJobStatus _ _ _ _) as [[e|] fd1] eqn:Hsave.
  { rewrite (saveJobStatus_fail _ _ _ _ _ _ Hsave) in *.
    injection H as <- <-. split; [done|]. intros _. split; [done|].
    right. by exists e. }
  destruct (saveJobStatus_frame _ _ _ _ _ _ Hsave) as (_ & Hjobs & _).
  destruct (try_send _ (jobs fd1)); try discriminate H.
  injection H as <- <-. split; [done|]. done.
Qed.

(** X3, for the deployer of [TestDeploy_Update_Status_Fail], whose serde
    fails. *)
Lemma Deploy_error_leaves_no_job_witness :
  let fd := mkFileDeployer Fixtures.db0 Fixtures.conf0 (make_chan jobSize)
              false (fakeClient Fixtures.release_ab None) []
              (fakeSerde (Some "fake")) in
  let r := Deploy "id1" "XX" "http://host/release.tar.gz" fd in
  r.1 = Returns (Fail "failed to set job status: failed to marshal status: fake") ∧
  jobs r.2 = jobs fd ∧ db r.2 = db fd.
Proof.
  intros fd r.
  destruct (Deploy_error_leaves_no_job "id1" "XX" "http://host/release.tar.gz"
              fd r.2 "failed to set job status: failed to marshal status: fake")
    as (Hjobs & Hdb).
  - reflexivity.
  - split; [reflexivity|]. split; [exact Hjobs|].
    apply Hdb. discriminate.
Defined.

(** ** Starting and stopping *)

(** X4. [Stop] must be called only once, and once [Start] has made the
    channel: on a new deployer it panics on the nil channel; where it
    returns, the flag is set, the queue closed with its jobs still in it, a
    second [Stop] panics on the closed channel, and every [Deploy] from then
    on returns the error [deployer is stopped] without saving or queueing
    anything. *)
Theorem Stop_only_once (d : DB) (conf : Config) (cl : HTTPClient)
    (lg : list LogEvent) (fd fd' : FileDeployer) :
  Stop (NewFileDeployer d conf cl lg) = Panics "close of nil channel" ∧
  (Stop fd = Returns fd' →
   stop fd' = true ∧
   chan_buf (jobs fd') = chan_buf (jobs fd) ∧
   recv (jobs fd') ≠ RecvBlocks ∧
   Stop fd' = Panics "close of closed channel" ∧
   ∀ jid releaseID releaseURL,
     (Deploy jid releaseID releaseURL fd').1
     = Returns (Fail "deployer is stopped") ∧
     db (Deploy jid releaseID releaseURL fd').2 = db fd ∧
     jobs (Deploy jid releaseID releaseURL fd').2 = jobs fd').
Proof.
  split; [reflexivity|]. unfold Stop. intros H.
  destruct (jobs fd) as [|n buf [|]] eqn:Hjobs; simpl in H; try discriminate H.
  injection H as <-. simpl. repeat split; try done.
  by destruct buf.
Qed.

(** X4, for the started deployer of the fixtures with [job1] in its
    queue. *)
Lemma Stop_only_once_witness :
  ∃ fd', Stop Fixtures.fd_job1 = Returns fd' ∧
         Stop fd' = Panics "close of closed channel" ∧
         (Deploy "id9" "XX" "http://host/release.tar.gz" fd').1
         = Returns (Fail "deployer is stopped").
Proof.
  set (fd' := set_stop true
                (set_jobs (Chan jobSize [Fixtures.job1] true) Fixtures.fd_job1)).
  destruct (Stop_only_once Fixtures.db0 Fixtures.conf0
              (fakeClient Fixtures.release_ab None) [] Fixtures.fd_job1 fd')
    as [_ H].
  destruct H as (_ & _ & _ & Hstop & Hdep); [reflexivity|].
  exists fd'. split; [reflexivity|]. split; [exact Hstop|].
  apply (Hdep "id9" "XX" "http://host/release.tar.gz").
Defined.

(** A [Deploy] that finds the flag not set and the channel closed panics,
    after it has saved the status. *)
Lemma Deploy_closed_unflagged (jid releaseID releaseURL : string)
    (fd : FileDeployer) (n : nat) (buf : list job) (b : string) :
  stop fd = false → jobs fd = Chan n buf true →
  db_closed (db fd) = false → Marshal (serde fd) created_status = Val b →
  (Deploy jid releaseID releaseURL fd).1 = Panics "send on closed channel" ∧
  items (db (Deploy jid releaseID releaseURL fd).2) !! jid = Some b.
Proof.
  intros Hstop Hjobs Hdb Hm. rewrite Deploy_unfold. cbv zeta. rewrite Hstop.
  erewrite saveJobStatus_ok; [|exact Hm|exact Hdb].
  simpl. rewrite Hjobs. simpl. split; [done|]. by rewrite lookup_insert_eq.
Qed.

(** X5. [Stop] closes the channel before it sets the stop flag, and
    [Deploy] sends on the channel after it has read the flag: from every
    start of the program with an open database there is a run in which a
    [Deploy] that read the flag before [Stop] closed the channel panics on
    its send, its status [created] saved and its job never queued. *)
Theorem Deploy_across_Stop_can_panic (E : Env) (d : DB) (conf : Config)
    (cl : HTTPClient) (lg : list LogEvent) (fs : FS)
    (jid releaseID releaseURL : string) :
  db_closed d = false →
  ∃ s, steps E (initial_sys d conf cl lg fs) s ∧
       panicked s = true ∧
       stop (sys_fd s) = false ∧
       stopper s = SClosed ∧
       callers s = [DSaved (newJob jid releaseID releaseURL)] ∧
       chan_buf (jobs (sys_fd s)) = [] ∧
       holds_created (sys_fd s) jid.
Proof.
  intros Hdb.
  set (fd0 := NewFileDeployer d conf cl lg).
  set (fd1 := set_stop false (set_jobs (make_chan jobSize) fd0)).
  set (fd2 := log (Info ("deploying release " +:+ fmt_q releaseID +:+
                         " from " +:+ fmt_q releaseURL)) fd1).
  set (fd3 := set_jobs (Chan jobSize [] true) fd2).
  destruct (Marshal (serde fd3) created_status) as [b|] eqn:Hm;
    [|discriminate Hm].
  pose proof (saveJobStatus_ok jid "created" "job has been created" fd3 b
                Hm Hdb) as Hsave.
  set (fd4 := set_db (mkDB (<[jid := b]> (items (db fd3))) false) fd3) in *.
  exists (mkSys fd4 fs WRecv SClosed
                [DSaved (newJob jid releaseID releaseURL)] true).
  split; [|repeat split; try done].
  - eapply rtc_l; [apply step_start|].
    eapply rtc_l.
    { by apply (step_deploy_check _ fd1 _ _ _ _ jid releaseID releaseURL). }
    eapply rtc_l.
    { by apply (step_stop_close _ fd2 _ _ _ (Chan jobSize [] true)). }
    eapply rtc_l.
    { by apply (step_deploy_save _ fd3 _ _ _ [] [] jid releaseID releaseURL fd4). }
    apply rtc_once.
    by apply (step_deploy_panic _ fd4 _ _ _ [] []).
  - exists b. split; [exact Hm|]. simpl. by rewrite lookup_insert_eq.
Qed.

(** X5, from the start of the program with the fixtures. *)
Lemma Deploy_across_Stop_can_panic_witness :
  ∃ s, steps Fixtures.E0
         (initial_sys Fixtures.db0 Fixtures.conf0
            (fakeClient Fixtures.release_ab None) [] Fixtures.fs0) s ∧
       panicked s = true.
Proof.
  destruct (Deploy_across_Stop_can_panic Fixtures.E0 Fixtures.db0
              Fixtures.conf0 (fakeClient Fixtures.release_ab None) []
              Fixtures.fs0 "id1" "XX" "http://host/release.tar.gz")
    as (s & Hsteps & Hp & _); [reflexivity|].
  by exists s.
Defined.

(** ** The worker's turn, recorded *)

(** X6. The worker's turn for a job records how the install ended: under
    the job's id the database then holds [ok] with [job done] when the
    install succeeded, [failed] with the text of the error when it did not
    (the serde writing and reading back that status, the database open), so
    that the job is no more [created]; the statuses of all other ids are as
    they were. *)
Theorem processJob_records_outcome (E : Env) (cands : list string) (j : job)
    (fd : FileDeployer) (fs : FS) (buf : string) :
  Marshal (serde fd)
    (recorded_status (handleJob E cands j fd fs).1.1) = Val buf →
  db_closed (db fd) = false →
  serde_faithful (serde fd)
    (recorded_status (handleJob E cands j fd fs).1.1) →
  GetStatus (id j) (processJob E cands j fd fs).1
  = Val (recorded_status (handleJob E cands j fd fs).1.1) ∧
  recorded_status (handleJob E cands j fd fs).1.1 ≠ created_status ∧
  (processJob E cands j fd fs).2 = (handleJob E cands j fd fs).2 ∧
  ∀ k, k ≠ id j →
       items (db (processJob E cands j fd fs).1) !! k = items (db fd) !! k.
Proof.
  intros Hm Hdb Hser.
  destruct (processJob E cands j fd fs) as [fd' fs'] eqn:Hp.
  destruct (processJob_frame _ _ _ _ _ _ _ Hp) as (_ & _ & _ & _ & _ & _ & Hk).
  unfold processJob in Hp.
  destruct (handleJob E cands j fd fs) as [[e fd1] fs1] eqn:Hh.
  destruct (handleJob_frame _ _ _ _ _ _ _ _ Hh) as (Hdb1 & _ & _ & _ & _ & Hs1).
  cbn [fst snd] in *. rewrite <- Hs1 in Hm, Hser. rewrite <- Hdb1 in Hdb.
  split; [|split; [by destruct e|split; [|done]]].
  - destruct e as [err|]; cbn [recorded_status] in *.
    + rewrite (saveJobStatus_ok (id j) "failed" err fd1 buf Hm Hdb) in Hp.
      injection Hp as <- <-.
      by apply (GetStatus_after_save (id j) "failed" err fd1 _
                  (saveJobStatus_ok _ _ _ _ _ Hm Hdb)).
    + rewrite (saveJobStatus_ok (id j) "ok" "job done" fd1 buf Hm Hdb) in Hp.
      injection Hp as <- <-.
      by apply (GetStatus_after_save (id j) "ok" "job done" fd1 _
                  (saveJobStatus_ok _ _ _ _ _ Hm Hdb)).
  - destruct e as [err|].
    + by destruct (saveJobStatus _ _ _ fd1) as [[] ?]; simplify_eq.
    + by destruct (saveJobStatus _ _ _ fd1) as [[] ?]; simplify_eq.
Qed.

(** X6, for [job1] of the fixtures, whose install succeeds
    ([TestDeployer_Scenario_Pass]). *)
Lemma processJob_records_outcome_witness :
  GetStatus "id1"
    (processJob Fixtures.E0 ["123"] Fixtures.job1 Fixtures.fd_job1
       Fixtures.fs0).1
  = Val ok_status.
Proof.
  destruct (processJob_records_outcome Fixtures.E0 ["123"] Fixtures.job1
              Fixtures.fd_job1 Fixtures.fs0
              (json_status_key +:+ json_string "ok" +:+
               json_message_key +:+ json_string "job done" +:+ "}"))
    as (Hget & _).
  - vm_compute. reflexivity.
  - reflexivity.
  - intros buf Hbuf. vm_compute in Hbuf. injection Hbuf as <-.
    vm_compute. reflexivity.
  - etrans; [exact Hget|]. vm_compute. reflexivity.
Defined.

(** ** The loop, to the end of the queue *)

(** After the worker's turn for a job, the job's id holds a terminal
    status, when the serde writes every status and the database is open. *)
Lemma processJob_terminal (E : Env) (cands : list string) (j : job)
    (fd fd' : FileDeployer) (fs fs' : FS) :
  processJob E cands j fd fs = (fd', fs') →
  db_closed (db fd) = false →
  (∀ v, ∃ b, Marshal (serde fd) v = Val b) →
  holds_terminal fd' (id j).
Proof.
  unfold processJob. intros Hp Hdb Hm.
  destruct (handleJob E cands j fd fs) as [[e fd1] fs1] eqn:Hh.
  destruct (handleJob_frame _ _ _ _ _ _ _ _ Hh) as (Hdb1 & _ & _ & _ & _ & Hs1).
  rewrite <- Hdb1 in Hdb.
  destruct e as [err|].
  - destruct (Hm (failed_status err)) as [b Hb]. rewrite <- Hs1 in Hb.
    rewrite (saveJobStatus_ok (id j) "failed" err fd1 b Hb Hdb) in Hp.
    injection Hp as <- <-. exists (failed_status err), b.
    split; [right; by exists err|]. split; [exact Hb|].
    simpl. by rewrite lookup_insert_eq.
  - destruct (Hm ok_status) as [b Hb]. rewrite <- Hs1 in Hb.
    rewrite (saveJobStatus_ok (id j) "ok" "job done" fd1 b Hb Hdb) in Hp.
    injection Hp as <- <-. exists ok_status, b.
    split; [by left|]. split; [exact Hb|].
    simpl. by rewrite lookup_insert_eq.
Qed.

(** What the loop keeps and reaches when the stop flag is not set: it goes
    through all the jobs, and each leaves a terminal status. *)
Lemma range_jobs_drains (E : Env) (rnd : nat → list string)
    (buf : list job) : ∀ (n : nat) (fd : FileDeployer) (fs : FS),
  stop fd = false →
  db_closed (db fd) = false →
  (∀ v, ∃ b, Marshal (serde fd) v = Val b) →
  ∃ fd' fs',
    range_jobs E rnd n buf fd fs = (fd', fs', [], false) ∧
    jobs fd' = jobs fd ∧ stop fd' = false ∧ serde fd' = serde fd ∧
    db_closed (db fd') = false ∧
    (∀ k, holds_terminal fd k → holds_terminal fd' k) ∧
    (∀ j, j ∈ buf → holds_terminal fd' (id j)).
Proof.
  induction buf as [|j buf IH]; intros n fd fs Hstop Hdb Hm.
  - exists fd, fs. repeat split; try done. intros j Hj. by apply elem_of_nil in Hj.
  - simpl. unfold getStop. rewrite Hstop.
    destruct (processJob E (rnd n) j fd fs) as [fd1 fs1] eqn:Hp.
    destruct (processJob_frame _ _ _ _ _ _ _ Hp)
      as (_ & Hjobs & Hstop1 & _ & Hser & Hcl & Hk).
    pose proof (processJob_terminal _ _ _ _ _ _ _ Hp Hdb Hm) as Hterm.
    assert (Hkeep : ∀ k, holds_terminal fd k → holds_terminal fd1 k).
    { intros k (st & b & Hst & Hb & Hl).
      destruct (decide (k = id j)) as [->|Hne]; [done|].
      exists st, b. rewrite Hser, Hk by done. done. }
    destruct (IH (S n) fd1 fs1) as (fd' & fs' & Hr & Hj' & Hs' & Hser' & Hcl' & Hk' & Hall).
    { congruence. }
    { congruence. }
    { intros v. rewrite Hser. apply Hm. }
    exists fd', fs'. rewrite Hr. repeat split; try congruence.
    + intros k Hkt. by apply Hk', Hkeep.
    + intros j' Hj0. apply elem_of_cons in Hj0 as [->|Hin]; [by apply Hk'|].
      by apply Hall.
Qed.

(** X7. With the stop flag not set, the database open and a serde that
    writes every status, [processJobs] takes every job out of the queue and
    leaves under the id of each a terminal status ([ok] with [job done], or
    [failed] with a message): none stays [created]. The loop then ends if
    the channel is closed and waits for the next job if it is open. *)
Theorem processJobs_drains_queue (E : Env) (rnd : nat → list string)
    (fd : FileDeployer) (fs : FS) (n : nat) (buf : list job) (cl : bool) :
  stop fd = false →
  jobs fd = Chan n buf cl →
  db_closed (db fd) = false →
  (∀ v, ∃ b, Marshal (serde fd) v = Val b) →
  (processJobs E rnd fd fs).2 = (if cl then ChanClosed else Waiting) ∧
  jobs (processJobs E rnd fd fs).1.1 = Chan n [] cl ∧
  ∀ j, j ∈ buf → holds_terminal (processJobs E rnd fd fs).1.1 (id j).
Proof.
  intros Hstop Hjobs Hdb Hm. unfold processJobs. rewrite Hjobs.
  destruct (range_jobs_drains E rnd buf 0 fd fs Hstop Hdb Hm)
    as (fd' & fs' & -> & _ & _ & _ & _ & _ & Hall).
  cbn [fst snd]. split; [done|]. split; [done|].
  intros j Hj. destruct (Hall j Hj) as (st & b & Hst & Hb & Hl).
  by exists st, b.
Qed.

(** X7, for the deployer of the fixtures with [job1] and the job of an
    unmapped release in its closed queue. *)
Lemma processJobs_drains_queue_witness :
  let fd := set_jobs (Chan jobSize [Fixtures.job1; Fixtures.job_unmapped] true)
              (Fixtures.started_fd Fixtures.release_ab) in
  (processJobs Fixtures.E0 Fixtures.rnd0 fd Fixtures.fs0).2 = ChanClosed ∧
  holds_terminal (processJobs Fixtures.E0 Fixtures.rnd0 fd Fixtures.fs0).1.1 "id1" ∧
  holds_terminal (processJobs Fixtures.E0 Fixtures.rnd0 fd Fixtures.fs0).1.1 "id2".
Proof.
  intros fd.
  destruct (processJobs_drains_queue Fixtures.E0 Fixtures.rnd0 fd Fixtures.fs0
              jobSize [Fixtures.job1; Fixtures.job_unmapped] true)
    as (Hend & _ & Hall).
  - reflexivity.
  - reflexivity.
  - reflexivity.
  - intros v. eexists. reflexivity.
  - split; [exact Hend|]. split.
    + apply (Hall Fixtures.job1). apply list_elem_of_here.
    + apply (Hall Fixtures.job_unmapped).
      apply list_elem_of_further, list_elem_of_here.
Defined.

(** ** The install, whatever its outcome *)

(** A triple is given by its first component and itself. *)
Lemma triple_first {A B C : Type} (x : A * B * C) (a : A) :
  x.1.1 = a → x = (a, x.1.2, x.2).
Proof. destruct x as [[? ?] ?]. simpl. by intros ->. Qed.

(** X8. The temporary folder of an install is removed on every return:
    once [ioutil.TempDir] has made it, whatever [handleJob] returns, success
    or error, nothing is left at or below its name. *)
Theorem handleJob_removes_scratch (E : Env) (cands : list string) (j : job)
    (fd : FileDeployer) (fs fs1 : FS) (target tmp : path) (res : Body)
    (p : path) :
  Entries (config fd) !! releaseID j = Some target →
  Get (client fd) (releaseURL j) = Val res →
  ioutil_TempDir E "hodor" cands fs = Val (tmp, fs1) →
  tmp `prefix_of` p →
  (handleJob E cands j fd fs).2 !! p = None.
Proof.
  intros Hent Hget Htmp Hp. unfold handleJob. cbn [config client log].
  rewrite Hent, Hget, Htmp.
  destruct (saveTar E res tmp fs1) as [[root|err] fs2].
  - destruct (os_Rename _ _ _); cbn [snd];
      rewrite os_RemoveAll_lookup; by rewrite decide_True.
  - cbn [snd]. rewrite os_RemoveAll_lookup. by rewrite decide_True.
Qed.

(** X8, for the install of the archive of the fixtures that has one name
    twice: nothing is left of the temporary folder. *)
Lemma handleJob_removes_scratch_witness :
  (handleJob Fixtures.E0 ["123"] Fixtures.job1
     (Fixtures.started_fd Fixtures.release_twice) Fixtures.fs0).2
    !! ["tmp"; "hodor123"; "release"] = None.
Proof.
  apply (handleJob_removes_scratch Fixtures.E0 ["123"] Fixtures.job1
           (Fixtures.started_fd Fixtures.release_twice) Fixtures.fs0
           (<[["tmp"; "hodor123"] := NDir 448]> Fixtures.fs0)
           Fixtures.site ["tmp"; "hodor123"] Fixtures.release_twice).
  - reflexivity.
  - reflexivity.
  - apply (bool_decide_unpack _). vm_compute. exact I.
  - by exists ["release"].
Defined.

(** X9. An install that fails before anything is extracted leaves the file
    tree (well formed) exactly as it was: when the fetch fails
    ([failed to get file]), when no temporary folder can be made, when the
    body is not gzip ([failed to create reader]), when the archive has no
    entry ([failed to read the first header]). *)
Theorem handleJob_early_failure_untouched (E : Env) (cands : list string)
    (j : job) (fd : FileDeployer) (fs : FS) (target : path) :
  wf_fs fs →
  Entries (config fd) !! releaseID j = Some target →
  (∀ err, Get (client fd) (releaseURL j) = Fail err →
     (handleJob E cands j fd fs).1.1 = Some ("failed to get file: " +:+ err) ∧
     (handleJob E cands j fd fs).2 = fs) ∧
  (∀ res err, Get (client fd) (releaseURL j) = Val res →
     ioutil_TempDir E "hodor" cands fs = Fail err →
     (handleJob E cands j fd fs).1.1
     = Some ("failed to create tmp dir: " +:+ err) ∧
     (handleJob E cands j fd fs).2 = fs) ∧
  (∀ err tmp fs1, Get (client fd) (releaseURL j) = Val (NotGzip err) →
     ioutil_TempDir E "hodor" cands fs = Val (tmp, fs1) →
     (handleJob E cands j fd fs).1.1
     = Some ("failed to save tar file: failed to create reader: " +:+ err) ∧
     (handleJob E cands j fd fs).2 = fs) ∧
  (∀ tr tmp fs1, Get (client fd) (releaseURL j) = Val (Gzip tr) →
     tar_entries tr = [] →
     ioutil_TempDir E "hodor" cands fs = Val (tmp, fs1) →
     (handleJob E cands j fd fs).1.1
     = Some ("failed to save tar file: failed to read the first header: "
             +:+ default "EOF" (tar_end tr)) ∧
     (handleJob E cands j fd fs).2 = fs).
Proof.
  intros Hwf Hent. unfold handleJob. cbn [config client log]. rewrite Hent.
  assert (Hfresh : ∀ tmp fs1, ioutil_TempDir E "hodor" cands fs = Val (tmp, fs1) →
                              os_RemoveAll tmp fs1 = fs).
  { intros tmp fs1 Htmp.
    destruct (ioutil_TempDir_inv _ _ _ _ _ _ Htmp) as ([c Hc] & Hnone & ->).
    apply os_RemoveAll_fresh; [done| |done]. rewrite Hc.
    by destruct (TempRoot E). }
  split; [|split; [|split]].
  - by intros err ->.
  - by intros res err -> ->.
  - intros err tmp fs1 -> Htmp. rewrite Htmp. cbn [saveTar fst snd].
    split; [done|]. by apply Hfresh.
  - intros tr tmp fs1 -> Htar Htmp. rewrite Htmp. unfold saveTar.
    rewrite Htar. cbn [fst snd]. split; [done|]. by apply Hfresh.
Qed.

(** X9, for the empty body of [TestHandleJob_Untar_Failed], which is not
    gzip. *)
Lemma handleJob_early_failure_untouched_witness :
  let fd := Fixtures.started_fd (NotGzip "EOF") in
  (handleJob Fixtures.E0 ["123"] Fixtures.job1 fd Fixtures.fs0).1.1
  = Some "failed to save tar file: failed to create reader: EOF" ∧
  (handleJob Fixtures.E0 ["123"] Fixtures.job1 fd Fixtures.fs0).2
  = Fixtures.fs0.
Proof.
  intros fd.
  destruct (handleJob_early_failure_untouched Fixtures.E0 ["123"]
              Fixtures.job1 fd Fixtures.fs0 Fixtures.site)
    as (_ & _ & Hgz & _).
  - apply (bool_decide_unpack _). vm_compute. exact I.
  - reflexivity.
  - apply (Hgz "EOF" ["tmp"; "hodor123"]
             (<[["tmp"; "hodor123"] := NDir 448]> Fixtures.fs0)).
    + reflexivity.
    + apply (bool_decide_unpack _). vm_compute. exact I.
Defined.

(** X10. The old content of the target folder is removed before the new
    one is moved in, in two steps: when the move fails (the install returns
    [failed to rename folder]), nothing is left at or below the target
    folder. *)
Theorem failed_rename_leaves_target_absent (E : Env) (cands : list string)
    (j : job) (fd : FileDeployer) (fs : FS) (target p : path) (err : string) :
  Entries (config fd) !! releaseID j = Some target →
  (handleJob E cands j fd fs).1.1 = Some ("failed to rename folder: " +:+ err) →
  target `prefix_of` p →
  (handleJob E cands j fd fs).2 !! p = None.
Proof.
  intros Hent Herr Hp.
  assert (Hne : ∀ a b : string, a ≠ b → Some a ≠ Some b) by congruence.
  unfold handleJob in *. cbn [config client log] in *. rewrite Hent in *.
  destruct (Get (client fd) (releaseURL j)) as [res|e0];
    [|cbn [fst snd] in Herr; by injection Herr].
  destruct (ioutil_TempDir E "hodor" cands fs) as [[tmp fs1]|e0];
    [|cbn [fst snd] in Herr; by injection Herr].
  destruct (saveTar E res tmp fs1) as [[root|e0] fs2];
    [|cbn [fst snd] in Herr; by injection Herr].
  destruct (os_Rename _ _ _) as [e|fsR]; [|by cbn [fst snd] in Herr].
  cbn [fst snd]. rewrite !os_RemoveAll_lookup.
  case_decide; [done|]. by rewrite decide_True.
Qed.

(** X10, for an archive whose root folder is named [../..], which the
    install cannot move: the site of the fixtures, with its [old.txt], is
    gone. *)
Lemma failed_rename_leaves_target_absent_witness :
  let body := Gzip (mkTarStream [Fixtures.dir_entry "../.."] None) in
  let r := handleJob Fixtures.E0 ["123"] Fixtures.job1
             (Fixtures.started_fd body) Fixtures.fs0 in
  r.1.1 = Some "failed to rename folder: rename / /srv/site: device or resource busy" ∧
  Fixtures.fs0 !! (Fixtures.site ++ ["old.txt"]) = Some (NFile "OLD" 420) ∧
  r.2 !! (Fixtures.site ++ ["old.txt"]) = None.
Proof.
  intros body r.
  split; [vm_compute; reflexivity|]. split; [vm_compute; reflexivity|].
  apply (failed_rename_leaves_target_absent Fixtures.E0 ["123"] Fixtures.job1
           (Fixtures.started_fd body) Fixtures.fs0 Fixtures.site
           (Fixtures.site ++ ["old.txt"])
           "rename / /srv/site: device or resource busy").
  - reflexivity.
  - vm_compute. reflexivity.
  - by exists ["old.txt"].
Defined.

(** ** What an install leaves alone *)

(** [os.MkdirAll] changes no node that exists. *)
Lemma MkdirAll_from_keeps (E : Env) (rest : list string) :
  ∀ (done : path) (perm : Z) (fs fs' : FS) (p : path) (n : node),
  MkdirAll_from E done rest perm fs = inr fs' →
  fs !! p = Some n → fs' !! p = Some n.
Proof.
  induction rest as [|c rest IH]; intros done0 perm fs fs' p n H Hp; simpl in H.
  - by simplify_eq.
  - assert (Hne : done0 ++ [c] ≠ []) by (by destruct done0).
    rewrite (stat_nonroot _ _ Hne) in H.
    destruct (fs !! (done0 ++ [c])) as [[]|] eqn:Hl;
      [done|by apply (IH _ _ _ _ _ _ H)|].
    apply (IH _ _ _ _ _ _ H). rewrite lookup_insert_ne; [done|].
    intros <-. congruence.
Qed.

(** The nodes [os.MkdirAll] makes are missing folders on the way to the
    path it is given. *)
Lemma MkdirAll_from_frame (E : Env) (rest : list string) :
  ∀ (done : path) (perm : Z) (fs fs' : FS) (p : path),
  MkdirAll_from E done rest perm fs = inr fs' →
  fs' !! p = fs !! p ∨
  (fs !! p = None ∧ ∃ k, k ≠ [] ∧ k `prefix_of` rest ∧ p = done ++ k).
Proof.
  induction rest as [|c rest IH]; intros done0 perm fs fs' p H; simpl in H.
  - left. by simplify_eq.
  - assert (Hne : done0 ++ [c] ≠ []) by (by destruct done0).
    rewrite (stat_nonroot _ _ Hne) in H.
    assert (Hext : ∀ k, k `prefix_of` rest →
              (c :: k) ≠ [] ∧ (c :: k) `prefix_of` (c :: rest) ∧
              (done0 ++ [c]) ++ k = done0 ++ c :: k).
    { intros k Hk. split; [done|]. split; [by apply prefix_cons|].
      by rewrite <- app_assoc. }
    destruct (fs !! (done0 ++ [c])) as [[]|] eqn:Hl; [done| |].
    + destruct (IH _ _ _ _ p H) as [|(Hnone & k & _ & Hk & ->)]; [by left|].
      right. split; [done|]. exists (c :: k).
      destruct (Hext k Hk) as (? & ? & ?). done.
    + destruct (IH _ _ _ _ p H) as [Heq|(Hnone & k & _ & Hk & ->)].
      * destruct (decide (p = done0 ++ [c])) as [->|Hp].
        -- right. split; [done|]. exists [c]. split; [done|].
           split; [|done]. apply prefix_cons, prefix_nil.
        -- left. by rewrite Heq, lookup_insert_ne.
      * right. destruct (Hext k Hk) as (? & ? & Heq).
        split.
        -- destruct (decide (done0 ++ [c] = (done0 ++ [c]) ++ k)) as [He|Hd].
           ++ rewrite <- He in Hnone. by rewrite lookup_insert_eq in Hnone.
           ++ by rewrite lookup_insert_ne in Hnone.
        -- by exists (c :: k).
Qed.

(** After [os.MkdirAll], the path is a folder. *)
Lemma MkdirAll_from_dir (E : Env) (rest : list string) :
  ∀ (done : path) (perm : Z) (fs fs' : FS),
  MkdirAll_from E done rest perm fs = inr fs' → rest ≠ [] →
  ∃ m, fs' !! (done ++ rest) = Some (NDir m).
Proof.
  induction rest as [|c rest IH]; intros done0 perm fs fs' H Hrest; [done|].
  simpl in H.
  assert (Hne : done0 ++ [c] ≠ []) by (by destruct done0).
  rewrite (stat_nonroot _ _ Hne) in H.
  replace (done0 ++ c :: rest) with ((done0 ++ [c]) ++ rest)
    by (by rewrite <- app_assoc).
  destruct rest as [|c' rest'].
  - simpl in H. rewrite app_nil_r.
    destruct (fs !! (done0 ++ [c])) as [[]|] eqn:Hl; simplify_eq; eauto.
    rewrite lookup_insert_eq. eauto.
  - destruct (fs !! (done0 ++ [c])) as [[]|] eqn:Hl; [done| |];
      by apply (IH _ _ _ _ H).
Qed.

(** One entry extracted, of any outcome: what exists stays in existence,
    folders stay folders, and an entry that goes below [tmp] changes
    nothing outside [tmp]. *)
Lemma untar_entry_outside (E : Env) (tmp : path) (e : TarEntry)
    (fs fs' : FS) (err : option string) :
  untar_entry E tmp e fs = (err, fs') →
  (∀ p, is_Some (fs !! p) → is_Some (fs' !! p)) ∧
  (∀ p m, fs !! p = Some (NDir m) → fs' !! p = Some (NDir m)) ∧
  (tmp `prefix_of` filepath_Join tmp (Name e) → above_exist tmp fs →
   ∀ p, ¬ tmp `prefix_of` p → fs' !! p = fs !! p).
Proof.
  intros H.
  destruct (decide (Typeflag e = TypeReg)) as [Hreg|Hnreg].
  - (* a regular file *)
    assert (Hother : ∀ q, q ≠ filepath_Join tmp (Name e) → fs' !! q = fs !! q)
      by (intros q; by apply (untar_entry_reg_other _ _ _ _ _ _ _ Hreg H)).
    split; [|split].
    + intros p Hp. destruct (decide (p = filepath_Join tmp (Name e))) as [->|Hq];
        [|by rewrite Hother].
      unfold untar_entry, os_OpenFile_create_rdwr in H.
      rewrite decide_False in H by (rewrite Hreg; done).
      rewrite decide_True in H by done.
      repeat case_match; simplify_eq; try done;
        rewrite lookup_insert_eq; eauto.
    + intros p m Hp. destruct (decide (p = filepath_Join tmp (Name e))) as [->|Hq];
        [|by rewrite Hother].
      unfold untar_entry, os_OpenFile_create_rdwr in H.
      rewrite decide_False in H by (rewrite Hreg; done).
      rewrite decide_True in H by done.
      destruct (filepath_Join tmp (Name e)) as [|c t] eqn:Ht.
      * simpl in H. by simplify_eq.
      * rewrite stat_nonroot, Hp in H by done. by simplify_eq.
    + intros Hin _ p Hp. apply Hother. by intros ->.
  - (* a folder, or an entry of another kind *)
    unfold untar_entry in H.
    rewrite (decide_False (P := Typeflag e = TypeReg)) in H by done.
    destruct (decide (Typeflag e = TypeDir)); [|by simplify_eq].
    destruct (stat fs _) eqn:Hstat; [by simplify_eq|].
    unfold os_MkdirAll in H.
    destruct (MkdirAll_from E [] _ perm_0755 fs) as [[]|fs1] eqn:Hmk;
      simplify_eq; [done|].
    split; [|split].
    + intros p [n Hp]. rewrite (MkdirAll_from_keeps _ _ _ _ _ _ _ _ Hmk Hp). eauto.
    + intros p m Hp. by apply (MkdirAll_from_keeps _ _ _ _ _ _ _ _ Hmk Hp).
    + intros Hin Habove p Hp.
      destruct (MkdirAll_from_frame _ _ _ _ _ _ p Hmk)
        as [|(Hnone & k & Hk & Hpre & ->)]; [done|].
      simpl in *. exfalso.
      destruct (prefix_weak_total tmp k (filepath_Join tmp (Name e)))
        as [|Hup]; [done|done|done|].
      destruct (Habove k Hup Hk) as [n Hn]. congruence.
Qed.

(** The same for all the entries. *)
Lemma untar_outside (E : Env) (tmp : path) (es : list TarEntry) :
  ∀ (fin : option string) (fs fs' : FS) (err : option string),
  untar E tmp es fin fs = (err, fs') →
  (∀ p, is_Some (fs !! p) → is_Some (fs' !! p)) ∧
  (∀ p m, fs !! p = Some (NDir m) → fs' !! p = Some (NDir m)) ∧
  ((∀ e, e ∈ es → tmp `prefix_of` filepath_Join tmp (Name e)) →
   above_exist tmp fs →
   ∀ p, ¬ tmp `prefix_of` p → fs' !! p = fs !! p).
Proof.
  induction es as [|e es IH]; intros fin fs fs' err H; simpl in H.
  - destruct fin; by simplify_eq.
  - destruct (untar_entry E tmp e fs) as [[e1|] fs1] eqn:He.
    + simplify_eq.
      destruct (untar_entry_outside _ _ _ _ _ _ He) as (H1 & H2 & H3).
      split; [done|]. split; [done|]. intros Hin Habove.
      apply H3; [|done]. apply Hin, list_elem_of_here.
    + destruct (untar_entry_outside _ _ _ _ _ _ He) as (H1 & H2 & H3).
      destruct (IH _ _ _ _ H) as (H1' & H2' & H3').
      split; [auto|]. split; [auto|]. intros Hin Habove p Hp.
      rewrite H3'; [|intros e' He'; by apply Hin, list_elem_of_further| |done].
      * apply H3; [|done|done]. apply Hin, list_elem_of_here.
      * intros q Hq Hqne. by apply H1, Habove.
Qed.

Lemma os_Rename_outside (old new k : path) (fs fs' : FS) :
  os_Rename old new fs = inr fs' →
  ¬ new `prefix_of` k → ¬ old `prefix_of` k → fs' !! k = fs !! k.
Proof.
  intros H Hnew Hold.
  assert (Hgo : (moved old new fs ∪ os_RemoveAll old (os_RemoveAll new fs))
                !! k = fs !! k).
  { rewrite lookup_union, moved_lookup, !os_RemoveAll_lookup.
    rewrite !decide_False by done. by destruct (fs !! k). }
  unfold os_Rename in H. repeat case_match; simplify_eq; done.
Qed.

Lemma os_Rename_names (old new : path) (fs fs' : FS) :
  os_Rename old new fs = inr fs' → old ≠ [] ∧ new ≠ [].
Proof. unfold os_Rename. intros H. repeat case_match; by simplify_eq. Qed.

Lemma ioutil_TempDir_parent (E : Env) (pre : string) (cands : list string)
    (fs : FS) (tmp : path) (fs1 : FS) :
  ioutil_TempDir E pre cands fs = Val (tmp, fs1) →
  parent tmp = TempRoot E ∧ is_dir (stat fs (TempRoot E)) = true.
Proof.
  induction cands as [|c cands IH]; simpl; [done|].
  unfold os_Mkdir.
  assert (Hne : TempRoot E ++ [pre +:+ c] ≠ []) by (by destruct (TempRoot E)).
  rewrite (stat_nonroot _ _ Hne).
  destruct (fs !! (TempRoot E ++ [pre +:+ c])) eqn:Hl; [exact IH|].
  unfold parent. rewrite removelast_last.
  destruct (stat fs (TempRoot E)) as [[]|]; try done.
  intros [= <- <-]. by rewrite removelast_last.
Qed.

(** In a well-formed tree, the temporary folder just made and all the
    folders above it exist. *)
Lemma ioutil_TempDir_above (E : Env) (pre : string) (cands : list string)
    (fs : FS) (tmp : path) (fs1 : FS) :
  wf_fs fs →
  ioutil_TempDir E pre cands fs = Val (tmp, fs1) →
  above_exist tmp fs1.
Proof.
  intros Hwf Htmp q Hq Hqne.
  destruct (ioutil_TempDir_inv _ _ _ _ _ _ Htmp) as ([c Hc] & Hfresh & ->).
  destruct (ioutil_TempDir_parent _ _ _ _ _ _ Htmp) as [Hpar Hdir].
  destruct (decide (q = tmp)) as [->|Hne].
  { rewrite lookup_insert_eq. eauto. }
  rewrite lookup_insert_ne by done.
  assert (Hq' : q `prefix_of` TempRoot E).
  { rewrite Hc in Hq, Hne. destruct Hq as [k Hk].
    destruct k as [|x k _] using rev_ind.
    - rewrite app_nil_r in Hk. by subst.
    - rewrite app_assoc in Hk. apply app_inj_tail in Hk as [-> _].
      by apply prefix_app_r. }
  destruct (fs !! q) as [n|] eqn:Hl; [eauto|].
  pose proof (wf_fs_nothing_below fs q (TempRoot E) Hwf Hqne Hl Hq') as Hroot.
  destruct (TempRoot E) as [|t ts] eqn:Ht.
  - apply prefix_nil_inv in Hq'. done.
  - rewrite stat_nonroot, Hroot in Hdir by done. done.
Qed.

(** [saveTar], of any outcome, on entries that all go below the temporary
    folder, changes nothing outside it. *)
Lemma saveTar_outside (E : Env) (tr : TarStream) (tmp : path) (fs fs2 : FS)
    (r : ret string) (p : path) :
  saveTar E (Gzip tr) tmp fs = (r, fs2) →
  (∀ e, e ∈ tar_entries tr → tmp `prefix_of` filepath_Join tmp (Name e)) →
  above_exist tmp fs →
  ¬ tmp `prefix_of` p →
  fs2 !! p = fs !! p.
Proof.
  unfold saveTar. intros H Hin Habove Hp.
  destruct (tar_entries tr) as [|root rest]; [by simplify_eq|].
  destruct (decide (Typeflag root ≠ TypeDir)); [by simplify_eq|].
  unfold os_MkdirAll in H.
  destruct (MkdirAll_from E [] _ perm_0755 fs) as [[]|fsm] eqn:Hmk;
    [by simplify_eq|].
  assert (Hm : fsm !! p = fs !! p).
  { destruct (MkdirAll_from_frame _ _ _ _ _ _ p Hmk)
      as [|(Hnone & k & Hk & Hpre & ->)]; [done|].
    simpl in *. exfalso.
    destruct (prefix_weak_total tmp k (filepath_Join tmp (Name root)))
      as [|Hup]; [apply Hin, list_elem_of_here|done|done|].
    destruct (Habove k Hup Hk) as [nd Hnd]. congruence. }
  destruct (untar E tmp rest (tar_end tr) fsm) as [err fs3] eqn:Hun.
  destruct (untar_outside _ _ _ _ _ _ _ Hun) as (_ & _ & Hout).
  assert (fs3 !! p = fs !! p).
  { rewrite Hout; [done| | |done].
    - intros e He. by apply Hin, list_elem_of_further.
    - intros q Hq Hqne. destruct (Habove q Hq Hqne) as [nd Hnd].
      rewrite (MkdirAll_from_keeps _ _ _ _ _ _ _ _ Hmk Hnd). eauto. }
  destruct err; by simplify_eq.
Qed.

(** X11. An install, whether it succeeds or fails, changes nothing outside
    the target folder, when every entry of the archive goes to a name at or
    below the temporary folder (no name climbs out of it with [..]) and the
    file tree is well formed: every path that is not at or below the target
    folder holds afterwards what it held before. *)
Theorem install_touches_only_target (E : Env) (cands : list string) (j : job)
    (fd : FileDeployer) (fs fs1 : FS) (target tmp : path) (tr : TarStream)
    (p : path) :
  wf_fs fs →
  Entries (config fd) !! releaseID j = Some target →
  Get (client fd) (releaseURL j) = Val (Gzip tr) →
  ioutil_TempDir E "hodor" cands fs = Val (tmp, fs1) →
  (∀ e, e ∈ tar_entries tr → tmp `prefix_of` filepath_Join tmp (Name e)) →
  ¬ target `prefix_of` p →
  (handleJob E cands j fd fs).2 !! p = fs !! p.
Proof.
  intros Hwf Hent Hget Htmp Hin Hp.
  pose proof (ioutil_TempDir_above _ _ _ _ _ _ Hwf Htmp) as Habove.
  destruct (ioutil_TempDir_inv _ _ _ _ _ _ Htmp) as ([c Hc] & Hfresh & Hfs1).
  assert (Htmpne : tmp ≠ []) by (rewrite Hc; by destruct (TempRoot E)).
  destruct (decide (tmp `prefix_of` p)) as [Hunder|Hout].
  { rewrite (wf_fs_nothing_below fs tmp p) by done.
    unfold handleJob. cbn [config client log]. rewrite Hent, Hget, Htmp.
    destruct (saveTar E (Gzip tr) tmp fs1) as [[root|err] fs2].
    - destruct (os_Rename _ _ _); cbn [snd];
        rewrite os_RemoveAll_lookup; by rewrite decide_True.
    - cbn [snd]. rewrite os_RemoveAll_lookup. by rewrite decide_True. }
  assert (Hfs1p : fs1 !! p = fs !! p).
  { rewrite Hfs1. rewrite lookup_insert_ne; [done|]. intros ->. by apply Hout. }
  unfold handleJob. cbn [config client log]. rewrite Hent, Hget, Htmp.
  destruct (saveTar E (Gzip tr) tmp fs1) as [[root|err] fs2] eqn:Hsave.
  - pose proof (saveTar_outside _ _ _ _ _ _ p Hsave Hin Habove Hout) as Hfs2.
    destruct (saveTar_ok_inv _ _ _ _ _ _ Hsave)
      as (root' & rest & fsm & Htar & _ & -> & _ & _).
    assert (Hrootin : tmp `prefix_of` filepath_Join tmp (Name root')).
    { apply Hin. rewrite Htar. apply list_elem_of_here. }
    assert (Hnold : ¬ filepath_Join tmp (Name root') `prefix_of` p).
    { intros Hpre. apply Hout. by etrans. }
    assert (HfsT : os_RemoveAll target fs2 !! p = fs !! p).
    { rewrite os_RemoveAll_lookup, decide_False by done. congruence. }
    destruct (os_Rename _ _ _) as [e|fsR] eqn:Hren; cbn [snd];
      rewrite os_RemoveAll_lookup, decide_False by done; [done|].
    by rewrite (os_Rename_outside _ _ p _ _ Hren).
  - cbn [snd]. rewrite os_RemoveAll_lookup, decide_False by done.
    rewrite (saveTar_outside _ _ _ _ _ _ p Hsave Hin Habove Hout). done.
Qed.

(** X11, for the release of the fixtures: the temporary folder's parent
    [/tmp] and the folder [/srv] are as before. *)
Lemma install_touches_only_target_witness :
  let fs' := (handleJob Fixtures.E0 ["123"] Fixtures.job1
                (Fixtures.started_fd Fixtures.release_ab) Fixtures.fs0).2 in
  fs' !! ["srv"] = Fixtures.fs0 !! ["srv"] ∧
  fs' !! ["tmp"] = Fixtures.fs0 !! ["tmp"].
Proof.
  intros fs'.
  set (tr := mkTarStream [ Fixtures.dir_entry "release/";
                           Fixtures.file_entry "release/a" "AAAA";
                           Fixtures.file_entry "release/b" "BB" ] None).
  assert (H : ∀ p, ¬ Fixtures.site `prefix_of` p →
                   fs' !! p = Fixtures.fs0 !! p).
  { intros p. apply (install_touches_only_target Fixtures.E0 ["123"]
             Fixtures.job1 (Fixtures.started_fd Fixtures.release_ab)
             Fixtures.fs0 (<[["tmp"; "hodor123"] := NDir 448]> Fixtures.fs0)
             Fixtures.site ["tmp"; "hodor123"] tr p).
    - apply (bool_decide_unpack _). vm_compute. exact I.
    - reflexivity.
    - reflexivity.
    - apply (bool_decide_unpack _). vm_compute. exact I.
    - intros e He. unfold tr in He. simpl in He.
      rewrite !elem_of_cons in He.
      destruct He as [->|[->|[->|He]]]; [| | |by apply elem_of_nil in He];
        apply (bool_decide_unpack _); vm_compute; exact I. }
  split; apply H; apply (bool_decide_unpack _); vm_compute; exact I.
Defined.

(** X12. After an install that succeeds, the target folder, when it is not
    inside the temporary folder, exists and is a folder: the root folder of
    the archive, moved there. *)
Theorem install_ok_target_is_folder (E : Env) (cands : list string) (j : job)
    (fd fd' : FileDeployer) (fs fs1 fs' : FS) (target tmp : path) :
  Entries (config fd) !! releaseID j = Some target →
  ioutil_TempDir E "hodor" cands fs = Val (tmp, fs1) →
  handleJob E cands j fd fs = (None, fd', fs') →
  ¬ tmp `prefix_of` target →
  ∃ m, fs' !! target = Some (NDir m).
Proof.
  intros Hent Htmp Hok Htarget.
  destruct (handleJob_ok_inv _ _ _ _ _ _ _ Hok)
    as (target' & res & tmp' & fs1' & r & fs2 & fsR
        & Hent' & Hget & Htmp' & Hsave & Hren & ->).
  rewrite Hent in Hent'. rewrite Htmp in Htmp'. simplify_eq.
  destruct res as [err|tr]; [by simpl in Hsave; simplify_eq|].
  destruct (saveTar_ok_inv _ _ _ _ _ _ Hsave)
    as (root & rest & fsm & Htar & Hdir & -> & Hmk & Hun).
  set (rootp := filepath_Join tmp' (Name root)) in *.
  destruct (os_Rename_names _ _ _ _ Hren) as [Hrootne _].
  destruct (os_Rename_inv _ _ _ _ Hren) as [[n Hn] _].
  rewrite os_RemoveAll_lookup in Hn.
  destruct (decide (target' `prefix_of` rootp)) as [|Hnabove]; [done|].
  destruct (MkdirAll_from_dir E rootp [] perm_0755 fs1' fsm Hmk Hrootne)
    as [m Hm].
  destruct (untar_outside _ _ _ _ _ _ _ Hun) as (_ & Hdirs & _).
  exists m. rewrite os_RemoveAll_lookup, decide_False by done.
  rewrite <- (app_nil_r target').
  rewrite (os_Rename_lookup _ _ [] _ _ Hren), app_nil_r.
  rewrite os_RemoveAll_lookup, decide_False by done.
  by apply Hdirs.
Qed.

(** X12, for the release of the fixtures. *)
Lemma install_ok_target_is_folder_witness :
  ∃ m, (handleJob Fixtures.E0 ["123"] Fixtures.job1
          (Fixtures.started_fd Fixtures.release_ab) Fixtures.fs0).2
         !! Fixtures.site = Some (NDir m).
Proof.
  set (r := handleJob Fixtures.E0 ["123"] Fixtures.job1
              (Fixtures.started_fd Fixtures.release_ab) Fixtures.fs0).
  apply (install_ok_target_is_folder Fixtures.E0 ["123"] Fixtures.job1
           (Fixtures.started_fd Fixtures.release_ab) r.1.2 Fixtures.fs0
           (<[["tmp"; "hodor123"] := NDir 448]> Fixtures.fs0) r.2
           Fixtures.site ["tmp"; "hodor123"]).
  - reflexivity.
  - apply (bool_decide_unpack _). vm_compute. exact I.
  - apply triple_first. vm_compute. reflexivity.
  - apply (bool_decide_unpack _). vm_compute. exact I.
Defined.

(** ** Stopping, whatever the worker is doing *)

Lemma drawn_ids_app (cs1 cs2 : list caller_state) :
  drawn_ids (cs1 ++ cs2) = drawn_ids cs1 ++ drawn_ids cs2.
Proof. apply omap_app. Qed.

Lemma NoDup_submseteq_of {A : Type} (l k : list A) :
  l ⊆+ k → NoDup k → NoDup l.
Proof.
  intros [k' Hk]%submseteq_Permutation Hnd. rewrite Hk in Hnd.
  by apply NoDup_app in Hnd as (? & _ & _).
Qed.

(** A save that succeeds found the database open. *)
Lemma saveJobStatus_open (jobID status message : string)
    (fd fd' : FileDeployer) :
  saveJobStatus jobID status message fd = (None, fd') →
  db_closed (db fd') = false.
Proof.
  unfold saveJobStatus, db_Set. intros H.
  destruct (Marshal (serde fd) _); [|done].
  destruct (db_closed (db fd)); [done|]. by injection H as <-.
Qed.

(** Fewer jobs and fewer ids, the database and the serde being the same. *)
Lemma created_apart_mono (fd fd' : FileDeployer) (js js' : list job)
    (ds ds' : list string) :
  created_apart fd js ds →
  js' ⊆+ js → ds' ⊆+ ds → db fd' = db fd → serde fd' = serde fd →
  created_apart fd' js' ds'.
Proof.
  intros (Hnd & Hcr & Hnd2 & Hfresh) Hjs Hds Hdb Hser.
  unfold created_apart, holds_created. rewrite Hdb, Hser.
  split; [|split; [|split]].
  - eapply NoDup_submseteq_of; [|exact Hnd]. by apply fmap_submseteq.
  - intros j Hj. apply Hcr. by eapply elem_of_submseteq.
  - by eapply NoDup_submseteq_of.
  - intros jid Hjid. apply Hfresh. by eapply elem_of_submseteq.
Qed.

(** The worker's turn with [j] leaves the other jobs and the ids drawn as
    they are. *)
Lemma created_apart_turn (E : Env) (cands : list string) (j : job)
    (fd fd' : FileDeployer) (fs fs' : FS) (js : list job) (ds : list string) :
  processJob E cands j fd fs = (fd', fs') →
  created_apart fd (j :: js) ds → created_apart fd' js ds.
Proof.
  intros H (Hnd & Hcr & Hnd2 & Hfresh).
  destruct (processJob_frame _ _ _ _ _ _ _ H)
    as (_ & _ & _ & _ & Hser & Hcl & Hk).
  rewrite fmap_cons in Hnd. apply NoDup_cons in Hnd as [Hj Hnd].
  destruct (Hcr j (list_elem_of_here _ _)) as [(bj & _ & Hbj) _].
  split; [done|]. split; [|split; [done|]].
  - intros j' Hj'.
    destruct (Hcr j' (list_elem_of_further _ _ _ Hj')) as [(buf & Hm & Hl) Hop].
    split; [|congruence]. exists buf. rewrite Hser. split; [done|].
    rewrite Hk; [done|]. intros Heq. apply Hj. rewrite <- Heq.
    apply list_elem_of_fmap. by exists j'.
  - intros jid Hjid. rewrite Hk; [by apply Hfresh|].
    intros ->. rewrite (Hfresh _ Hjid) in Hbj. discriminate.
Qed.

(** A call saves the [created] status under the id it drew: its job joins
    the jobs on their way. *)
Lemma created_apart_save (jid releaseID releaseURL : string)
    (fd fd' : FileDeployer) (js : list job) (ds1 ds2 : list string) :
  saveJobStatus jid "created" "job has been created" fd = (None, fd') →
  created_apart fd js (ds1 ++ jid :: ds2) →
  created_apart fd' (newJob jid releaseID releaseURL :: js) (ds1 ++ ds2).
Proof.
  intros H (Hnd & Hcr & Hnd2 & Hfresh).
  destruct (saveJobStatus_frame _ _ _ _ _ _ H)
    as (_ & _ & _ & _ & _ & Hser & Hcl & Hk).
  pose proof (saveJobStatus_created _ _ _ H) as Hnew.
  pose proof (saveJobStatus_open _ _ _ _ _ H) as Hopen.
  assert (Hjid : items (db fd) !! jid = None).
  { apply Hfresh. apply elem_of_app. right. apply list_elem_of_here. }
  assert (Hds : ds1 ++ ds2 ⊆+ ds1 ++ jid :: ds2).
  { apply submseteq_skips_l. by apply submseteq_cons. }
  assert (Hne : ∀ k, k ∈ ds1 ++ ds2 → k ≠ jid).
  { intros k Hin ->.
    assert (Hp : ds1 ++ jid :: ds2 ≡ₚ jid :: (ds1 ++ ds2))
      by (by rewrite Permutation_middle).
    rewrite Hp in Hnd2. apply NoDup_cons in Hnd2 as [Hnot _]. done. }
  split; [|split; [|split]].
  - rewrite fmap_cons. apply NoDup_cons. split; [|done].
    simpl. intros (j & Hid & Hj)%list_elem_of_fmap.
    destruct (Hcr j Hj) as [(buf & _ & Hl) _].
    rewrite <- Hid, Hjid in Hl. discriminate.
  - intros j [->|Hj]%elem_of_cons; [done|].
    split; [|done].
    destruct (decide (id j = jid)) as [->|Hdiff]; [done|].
    destruct (Hcr j Hj) as [(buf & Hm & Hl) _].
    exists buf. rewrite Hser, Hk by done. done.
  - by eapply NoDup_submseteq_of.
  - intros k Hin. rewrite Hk by (by apply Hne).
    apply Hfresh. by eapply elem_of_submseteq.
Qed.

(** One step, the ids drawn being new. *)
Lemma step_new_ids_created (E : Env) (s s' : Sys) :
  step E s s' → draws_new_id s s' →
  on_their_way_created s → on_their_way_created s'.
Proof.
  intros Hstep Hnew Hinv.
  unfold on_their_way_created, in_flight in *.
  inversion Hstep; subst; simpl in *;
    rewrite ?saved_jobs_app, ?drawn_ids_app in *; simpl in *.
  - (* Start *)
    eapply created_apart_mono; [exact Hinv| |done..].
    apply submseteq_inserts_l. done.
  - (* receive *)
    rewrite (recv_buf _ _ _ H) in Hinv.
    eapply created_apart_mono; [exact Hinv|done..].
  - done.
  - (* the flag is seen *)
    eapply created_apart_mono; [exact Hinv| |done..].
    by apply submseteq_cons.
  - done.
  - (* a turn *)
    destruct (processJob_frame _ _ _ _ _ _ _ H) as (_ & Hjobs & _).
    rewrite Hjobs. by eapply created_apart_turn.
  - (* close *)
    rewrite <- (close_chan_buf _ _ H) in Hinv.
    eapply created_apart_mono; [exact Hinv|done..].
  - done.
  - eapply created_apart_mono; [exact Hinv|done..].
  - eapply created_apart_mono; [exact Hinv|done..].
  - (* an id is drawn *)
    destruct (Hnew _ _ _ eq_refl) as [Hnone Hnot].
    destruct Hinv as (Hnd & Hcr & Hnd2 & Hfresh).
    split; [done|]. split; [done|]. split.
    + apply NoDup_cons. done.
    + intros k [->|Hk]%elem_of_cons; [done|]. by apply Hfresh.
  - (* the save fails *)
    rewrite (saveJobStatus_fail _ _ _ _ _ _ H).
    eapply created_apart_mono; [exact Hinv|done| |done..].
    apply submseteq_skips_l. by apply submseteq_cons.
  - (* the save *)
    destruct (saveJobStatus_frame _ _ _ _ _ _ H) as (_ & Hjobs & _).
    rewrite Hjobs.
    match goal with
    | |- context [newJob ?a ?b ?c] =>
        pose proof (created_apart_save a b c _ _ _ _ _ H Hinv) as Hsv
    end.
    eapply created_apart_mono; [exact Hsv| |done..].
    apply Permutation_submseteq.
    rewrite !app_assoc. by rewrite <- Permutation_middle.
  - (* the send *)
    rewrite (try_send_buf _ _ _ H).
    eapply created_apart_mono; [exact Hinv| |done..].
    apply submseteq_skips_l. apply Permutation_submseteq.
    rewrite <- !app_assoc. apply Permutation_app_head.
    simpl. by rewrite Permutation_middle.
  - (* the queue is full *)
    eapply created_apart_mono; [exact Hinv| |done..].
    do 3 apply submseteq_skips_l. by apply submseteq_cons.
  - done.
Qed.

(** The jobs on their way are [created] and apart in every state reached
    with new ids. *)
Lemma reachable_new_ids_created (E : Env) (s : Sys) :
  reachable_new_ids E s → on_their_way_created s.
Proof.
  intros (d & conf & cl & lg & fs & Hrun).
  apply (rtc_ind_r (R := step_new_ids E) (fun s => on_their_way_created s)
           (initial_sys d conf cl lg fs)); [| |exact Hrun].
  - unfold on_their_way_created, created_apart, in_flight. simpl.
    split; [apply NoDup_nil_2|]. split; [by intros j Hin%elem_of_nil|].
    split; [apply NoDup_nil_2|]. by intros j Hin%elem_of_nil.
  - intros s1 s2 _ [Hstep Hnew] IH. by eapply step_new_ids_created.
Qed.

(** [GetStatus] reads the key, the serde and whether the database is open. *)
Lemma GetStatus_same (fd fd' : FileDeployer) (k : string) :
  db_closed (db fd') = db_closed (db fd) →
  items (db fd') !! k = items (db fd) !! k →
  serde fd' = serde fd →
  GetStatus k fd' = GetStatus k fd.
Proof. unfold GetStatus, db_Get. by intros -> -> ->. Qed.

(** One step with the stop flag set. *)
Lemma step_flag_set (E : Env) (s s' : Sys) :
  step E s s' → stop (sys_fd s) = true → worker s ≠ WIdle →
  (stop (sys_fd s') = true ∧ worker s' ≠ WIdle) ∧
  (config (sys_fd s') = config (sys_fd s) ∧
   client (sys_fd s') = client (sys_fd s) ∧
   serde (sys_fd s') = serde (sys_fd s)) ∧
  (∀ j, worker s' = WRun j → worker s = WRun j ∧ sys_fs s' = sys_fs s) ∧
  (sys_fs s' = sys_fs s ∨
   ∃ j cands, worker s = WRun j ∧ worker s' = WRecv ∧
              sys_fs s' = (processJob E cands j (sys_fd s) (sys_fs s)).2) ∧
  (∀ k, (∀ j0, worker s = WRun j0 → k ≠ id j0) →
        serde_faithful (serde (sys_fd s)) created_status →
        GetStatus k (sys_fd s) = Val created_status →
        GetStatus k (sys_fd s') = Val created_status).
Proof.
  intros Hstep Hstop Hw.
  inversion Hstep; subst; unfold getStop in *; simpl in *; try congruence.
  all: try match goal with
    | H : processJob _ ?cands ?j _ _ = _ |- _ =>
        (* a turn *)
        destruct (processJob_frame _ _ _ _ _ _ _ H)
          as (Hc & _ & Hs & Hcl & Hser & Hclosed & Hk);
        split; [split; [congruence|done]|]; split; [done|];
        split; [done|]; split;
        [ right; exists j, cands; by rewrite H
        | intros k Hne _ Hget; rewrite <- Hget;
          apply GetStatus_same; [done| |done]; apply Hk; by apply Hne ]
    | H : saveJobStatus _ _ _ _ = (Some _, _) |- _ =>
        (* the save fails *)
        rewrite (saveJobStatus_fail _ _ _ _ _ _ H); by repeat split; auto
    | H : saveJobStatus ?jid _ _ _ = (None, _) |- _ =>
        (* the save *)
        destruct (saveJobStatus_frame _ _ _ _ _ _ H)
          as (Hc & _ & Hs & Hcl & _ & Hser & Hclosed & Hk);
        split; [split; [congruence|done]|]; split; [done|];
        split; [done|]; split; [by left|];
        intros k _ Hfaith Hget;
        destruct (decide (k = jid)) as [->|Hne];
        [ by apply (GetStatus_after_save _ _ _ _ _ H)
        | rewrite <- Hget; apply GetStatus_same; auto ]
    end.
  all: repeat split; auto; try done.
Qed.

(** Any number of steps with the stop flag set. *)
Lemma steps_flag_set (E : Env) (s s' : Sys) :
  steps E s s' → stop (sys_fd s) = true → worker s ≠ WIdle →
  (stop (sys_fd s') = true ∧ worker s' ≠ WIdle) ∧
  (config (sys_fd s') = config (sys_fd s) ∧
   client (sys_fd s') = client (sys_fd s) ∧
   serde (sys_fd s') = serde (sys_fd s)) ∧
  (∀ j, worker s' = WRun j → worker s = WRun j ∧ sys_fs s' = sys_fs s) ∧
  (sys_fs s' = sys_fs s ∨
   ∃ j cands fd, worker s = WRun j ∧
                 config fd = config (sys_fd s) ∧
                 client fd = client (sys_fd s) ∧
                 sys_fs s' = (processJob E cands j fd (sys_fs s)).2) ∧
  (∀ k, (∀ j0, worker s = WRun j0 → k ≠ id j0) →
        serde_faithful (serde (sys_fd s)) created_status →
        GetStatus k (sys_fd s) = Val created_status →
        GetStatus k (sys_fd s') = Val created_status).
Proof.
  induction 1 as [s|s s1 s' Hstep _ IH]; intros Hstop Hw.
  { repeat split; auto. }
  destruct (step_flag_set _ _ _ Hstep Hstop Hw)
    as ((Hstop1 & Hw1) & (Hc1 & Hcl1 & Hser1) & Hrun1 & Hfs1 & Hget1).
  destruct (IH Hstop1 Hw1)
    as (Hflag & (Hc & Hcl & Hser) & Hrun & Hfs & Hget).
  split; [done|]. split; [repeat split; congruence|]. split; [|split].
  - intros j Hj. destruct (Hrun j Hj) as [Hj1 Hfs'].
    destruct (Hrun1 j Hj1) as [Hj0 Hfs0]. split; [done|congruence].
  - destruct Hfs as [Hsame|(j & cands & fd & Hj1 & Hcf & Hclf & Hfs')].
    + destruct Hfs1 as [Hsame1|(j & cands & Hj & _ & Hfs')].
      * left. congruence.
      * right. exists j, cands, (sys_fd s). repeat split; congruence.
    + destruct (Hrun1 j Hj1) as [Hj0 Hfs0].
      right. exists j, cands, fd. repeat split; congruence.
  - intros k Hne Hfaith Hk. apply Hget.
    + intros j0 Hj0. apply Hne. by apply Hrun1.
    + by rewrite Hser1.
    + by apply Hget1.
Qed.

(** The jobs of the queue are among the jobs on their way. *)
Lemma queued_in_flight (s : Sys) (j : job) : j ∈ queued s → j ∈ in_flight s.
Proof.
  unfold queued, in_flight. destruct (worker s); simpl; intros Hj;
    rewrite ?elem_of_cons, ?elem_of_app in *; tauto.
Qed.

(** C8, as the code has it. From the moment the stop flag is set, the
    worker having been started, and in all that follows, whatever callers,
    worker and stopper do: the flag stays set; the worker takes no job past
    the check of the flag, so that the only install is that of the job it
    had already taken past the check, if any, and but for it the file tree
    stays as it is; a job the worker receives is dropped at the check and
    the loop returns; a status [created], of any job but the one in the
    worker's hands, stays [created] for ever. And where the ids drawn by
    [newJob] are new, every job in the queue at that moment has the status
    [created] and keeps it for ever. *)
Theorem queued_jobs_dropped_under_stop (E : Env) (s s' : Sys) :
  stop (sys_fd s) = true → worker s ≠ WIdle → steps E s s' →
  (stop (sys_fd s') = true ∧ worker s' ≠ WIdle) ∧
  (∀ j, worker s' = WRun j → worker s = WRun j ∧ sys_fs s' = sys_fs s) ∧
  (sys_fs s' = sys_fs s ∨
   ∃ j cands fd, worker s = WRun j ∧
                 config fd = config (sys_fd s) ∧
                 client fd = client (sys_fd s) ∧
                 sys_fs s' = (processJob E cands j fd (sys_fs s)).2) ∧
  (∀ j s2, worker s' = WGot j → step E s' s2 →
           worker s2 = WGot j ∨ worker s2 = WDone) ∧
  (∀ k, (∀ j0, worker s = WRun j0 → k ≠ id j0) →
        serde_faithful (serde (sys_fd s)) created_status →
        GetStatus k (sys_fd s) = Val created_status →
        GetStatus k (sys_fd s') = Val created_status) ∧
  (reachable_new_ids E s →
   serde_faithful (serde (sys_fd s)) created_status →
   ∀ j, j ∈ queued s →
        GetStatus (id j) (sys_fd s) = Val created_status ∧
        GetStatus (id j) (sys_fd s') = Val created_status).
Proof.
  intros Hstop Hw Hsteps.
  destruct (steps_flag_set _ _ _ Hsteps Hstop Hw)
    as ((Hstop' & Hw') & _ & Hrun & Hfs & Hget).
  split; [done|]. split; [done|]. split; [done|]. split; [|split; [done|]].
  - intros j s2 Hj Hstep.
    inversion Hstep; subst; simpl in *; simplify_eq; auto.
    unfold getStop in *. congruence.
  - intros Hreach Hfaith j Hj.
    destruct (reachable_new_ids_created _ _ Hreach) as (Hnd & Hcr & _ & _).
    destruct (Hcr j (queued_in_flight _ _ Hj)) as [Hc Hopen].
    assert (Hnow : GetStatus (id j) (sys_fd s) = Val created_status)
      by (by apply GetStatus_holds_created).
    split; [done|]. apply Hget; [|done..].
    intros j0 Hj0 Heq. unfold queued, in_flight in *. rewrite Hj0 in *.
    simpl in Hnd. apply NoDup_cons in Hnd as [Hnot _]. apply Hnot.
    rewrite Heq in *. apply list_elem_of_fmap. exists j. split; [done|].
    apply elem_of_app. by left.
Qed.

(** The JSON serde reads back the [created] status. *)
Lemma JSONSerde_created_faithful : serde_faithful JSONSerde created_status.
Proof.
  intros buf Hbuf. vm_compute in Hbuf. injection Hbuf as <-.
  vm_compute. reflexivity.
Qed.

(** The system of the fixtures in the middle of an install is reached with
    new ids. *)
Lemma sys_mid_install_reachable :
  reachable_new_ids Fixtures.E0 Fixtures.sys_mid_install.
Proof.
  exists Fixtures.db0, Fixtures.conf0,
         (fakeClient Fixtures.release_ab None), [], Fixtures.fs0.
  set (fda := Fixtures.started_fd Fixtures.release_ab).
  set (fdb := log (Info ("deploying release " +:+ fmt_q "XX" +:+ " from " +:+
                         fmt_q "http://host/release.tar.gz")) fda).
  set (sv := saveJobStatus "id1" "created" "job has been created" fdb).
  set (fdc := log (Info ("deploying release " +:+ fmt_q "XX" +:+ " from " +:+
                         fmt_q "http://host/release2.tar.gz"))
                  Fixtures.fd_job1).
  set (sv2 := saveJobStatus "id2" "created" "job has been created" fdc).
  eapply rtc_l.
  { split; [apply step_start|]. intros ? ? ? Heq. discriminate Heq. }
  eapply rtc_l.
  { split.
    - apply (step_deploy_check _ fda _ _ _ _ "id1" "XX"
               "http://host/release.tar.gz"). reflexivity.
    - intros jid ? ? Heq. injection Heq as <- _ _.
      split; [reflexivity|]. apply not_elem_of_nil. }
  eapply rtc_l.
  { split.
    - apply (step_deploy_save _ fdb _ _ _ [] [] "id1" "XX"
               "http://host/release.tar.gz" sv.2). reflexivity.
    - intros ? ? ? Heq. discriminate Heq. }
  eapply rtc_l.
  { split.
    - apply (step_deploy_sent _ sv.2 _ _ _ [] [] Fixtures.job1
               (Chan jobSize [Fixtures.job1] false)). reflexivity.
    - intros ? ? ? Heq. discriminate Heq. }
  eapply rtc_l.
  { split.
    - apply (step_deploy_check _ Fixtures.fd_job1 _ _ _ _ "id2" "XX"
               "http://host/release2.tar.gz"). reflexivity.
    - intros jid ? ? Heq. injection Heq as <- _ _.
      split; [reflexivity|]. apply not_elem_of_nil. }
  eapply rtc_l.
  { split.
    - apply (step_deploy_save _ fdc _ _ _ [] [] "id2" "XX"
               "http://host/release2.tar.gz" sv2.2). reflexivity.
    - intros ? ? ? Heq. discriminate Heq. }
  eapply rtc_l.
  { split.
    - apply (step_deploy_sent _ sv2.2 _ _ _ [] [] Fixtures.job2
               (Chan jobSize [Fixtures.job1; Fixtures.job2] false)).
      reflexivity.
    - intros ? ? ? Heq. discriminate Heq. }
  eapply rtc_l.
  { split.
    - apply (step_recv _ Fixtures.fd_job12 _ _ _ Fixtures.job1
               (Chan jobSize [Fixtures.job2] false)). reflexivity.
    - intros ? ? ? Heq. discriminate Heq. }
  eapply rtc_l.
  { split.
    - apply step_stop_unseen. reflexivity.
    - intros ? ? ? Heq. discriminate Heq. }
  eapply rtc_l.
  { split.
    - apply (step_stop_close _ _ _ _ _ (Chan jobSize [Fixtures.job2] true)).
      reflexivity.
    - intros ? ? ? Heq. discriminate Heq. }
  eapply rtc_l; [|apply rtc_refl].
  split.
  - apply step_stop_flag.
  - intros ? ? ? Heq. discriminate Heq.
Qed.

(** C8, for the system of the fixtures with the flag set in the middle of
    the install of [job1]: the worker finishes [job1], receives [job2],
    sees the flag and returns; [job1] is [ok] and [job2], never installed,
    is [created] as before. *)
Lemma queued_jobs_dropped_under_stop_witness :
  ∃ s', steps Fixtures.E0 Fixtures.sys_mid_install s' ∧
        worker s' = WDone ∧
        GetStatus "id1" (sys_fd s') = Val ok_status ∧
        GetStatus "id2" (sys_fd s') = Val created_status.
Proof.
  set (fd := sys_fd Fixtures.sys_mid_install).
  set (r := processJob Fixtures.E0 ["123"] Fixtures.job1 fd Fixtures.fs0).
  set (s' := mkSys (set_jobs (Chan jobSize [] true) r.1) r.2
                   WDone SDone [] false).
  assert (Hsteps : steps Fixtures.E0 Fixtures.sys_mid_install s').
  { eapply rtc_l.
    { apply (step_process _ fd _ _ _ _ ["123"] r.1 r.2).
      symmetry. apply surjective_pairing. }
    eapply rtc_l.
    { apply (step_recv _ r.1 _ _ _ Fixtures.job2 (Chan jobSize [] true)).
      vm_compute. reflexivity. }
    eapply rtc_l; [|apply rtc_refl].
    apply step_stop_seen. vm_compute. reflexivity. }
  destruct (queued_jobs_dropped_under_stop Fixtures.E0
              Fixtures.sys_mid_install s' eq_refl ltac:(discriminate) Hsteps)
    as (_ & _ & _ & _ & _ & Hq).
  exists s'. split; [exact Hsteps|]. split; [reflexivity|]. split.
  - vm_compute. reflexivity.
  - apply (Hq sys_mid_install_reachable JSONSerde_created_faithful
              Fixtures.job2).
    apply list_elem_of_here.
Defined.
